(** * MBM Music Visualizer: the frame loop of [MusicVisualizer.process]

    A shallow embedding of [src/mbmMusicVisualizer.py]: the latent
    recurrence ([_iterateLatentByMode], [_applyFeatToLatent],
    [_createLatent]), the seed sequencer ([_iterateSeedByMode]) and the
    orchestrating loop of [process].

    Tensors are objects on a store, because the source updates them in
    place ([latent += modifier]) and hands the same object on to the next
    frame.  The two random sources, the bounce flag of the node instance
    and the calls made to the external collaborators are threaded through
    a state-and-exception monad. *)

From Stdlib Require Import ZArith QArith Bool String Lia.
From stdpp Require Import base list.

Local Open Scope nat_scope.

(** ** Scalars

    The source computes with floats (Python floats, 0-dim torch tensors).
    Nothing below depends on how they round: the arithmetic is an
    interface, and the theorems hold for every implementation of it.
    [Qscalar] implements it with exact rationals, to run the code on
    concrete inputs. *)

Class Scalar (R : Type) : Type := {
  lit : Q -> R;                 (* a numeric literal of the source *)
  fadd : R -> R -> R;           (* x + y *)
  fsub : R -> R -> R;           (* x - y *)
  fneg : R -> R;                (* -x *)
  flt : R -> R -> bool;         (* x < y *)
  fle : R -> R -> bool;         (* x <= y *)
  tmean : list R -> R;          (* torch.mean over the elements *)
  fle_not_flt : forall x y, fle x y = true -> flt y x = false
}.

(** ** External collaborators

    Code the source calls but does not define: Python's [random] module,
    numpy's legacy global generator, [MbmPrompt.buildComfyUiPrompt],
    [common_ksampler] and [chartData].  Each is taken as a function of
    what it is given (and, for the generators, of the generator state). *)

Record KSamplerSettings (R Model : Type) : Type := {
  model : Model;
  steps : Z;
  cfg : R;
  sampler_name : string;
  scheduler : string;
  denoise : R
}.
Arguments model {R Model} _.
Arguments steps {R Model} _.
Arguments cfg {R Model} _.
Arguments sampler_name {R Model} _.
Arguments scheduler {R Model} _.
Arguments denoise {R Model} _.

Class Host (R : Type) : Type := {
  PyRandom : Type;              (* state behind random.random / randint *)
  NpRandom : Type;              (* state behind np.random.normal *)
  Conditioning : Type;          (* what buildComfyUiPrompt returns *)
  Model : Type;
  ChartImage : Type;
  random_seed : Z -> PyRandom;                          (* random.seed(a) *)
  random_random : PyRandom -> R * PyRandom;             (* random.random() *)
  random_randint : Z -> Z -> PyRandom -> Z * PyRandom;  (* random.randint(a, b) *)
  np_random_normal : R -> R -> nat -> NpRandom -> list R * NpRandom;
  buildComfyUiPrompt : list (list R) -> list R -> Conditioning;
  common_ksampler :
    KSamplerSettings R Model -> Z -> Conditioning -> Conditioning -> list R -> list R;
  chartData : list R -> string -> ChartImage
}.

(** ** Class constants *)

Definition SEED_MODE_FIXED : string := "fixed"%string.
Definition SEED_MODE_RANDOM : string := "random"%string.
Definition SEED_MODE_INCREASE : string := "increase"%string.
Definition SEED_MODE_DECREASE : string := "decrease"%string.

Definition LATENT_MODE_STATIC : string := "static"%string.
Definition LATENT_MODE_INCREASE : string := "increase"%string.
Definition LATENT_MODE_DECREASE : string := "decrease"%string.
Definition LATENT_MODE_FLOW : string := "flow"%string.
Definition LATENT_MODE_GAUSS : string := "guassian"%string.
Definition LATENT_MODE_BOUNCE : string := "bounce"%string.

Definition FEAT_APPLY_METHOD_ADD : string := "add"%string.
Definition FEAT_APPLY_METHOD_SUBTRACT : string := "subtract"%string.

(** ** Data *)

(** A prompt frame.  [MbmPrompt] is declared outside this file; these are
    the four fields [process] reads.  A conditioning payload is the list
    of its rows, so that [len(p.positive)] is the length of the list. *)
Record MbmPrompt (R : Type) : Type := {
  positive : list (list R);
  negative : list (list R);
  positivePool : list R;
  negativePool : list R
}.
Arguments positive {R} _.
Arguments negative {R} _.
Arguments positivePool {R} _.
Arguments negativePool {R} _.

(** A tensor object is named by its position on the store. *)
Definition Loc := nat.

Inductive PyError : Type :=
| ValueError (msg : string)
| IndexError.

Inductive Res (A : Type) : Type :=
| Ok (a : A)
| Raise (e : PyError).
Arguments Ok {A} _.
Arguments Raise {A} _.

Section Visualizer.

Context {R : Type} `{Scalar R} `{Host R}.

(** The calls [process] makes to its collaborators, in the order made. *)
Inductive Event : Type :=
| EvPrompt (i : nat)
    (* promptPos, promptNeg rebuilt from prompts[i] *)
| EvSample (seed : Z) (pos neg : Conditioning) (latent : list R)
    (* common_ksampler(model, seed, ..., pos, neg, {"samples": latent}, ...) *)
| EvSeed (seed' : Z)
    (* seed = self._iterateSeedByMode(seed, seed_mode) *)
| EvChart (series : list R) (label : string).
    (* chartData(series, label) *)

(** Everything that outlives a statement: the two generators, the node
    instance's [__isBouncingUp], the tensor objects, the calls so far. *)
Record World : Type := {
  py_random : PyRandom;
  np_random : NpRandom;
  __isBouncingUp : bool;
  tensors : list (list R);
  trace : list Event
}.

(** A newly constructed node ([__init__] sets [__isBouncingUp = True]) in a
    process whose generators are at [p] and [g] and which holds the
    tensors [ts]; no call has been made yet. *)
Definition freshWorld (p : PyRandom) (g : NpRandom) (ts : list (list R)) : World :=
  {| py_random := p; np_random := g; __isBouncingUp := true;
     tensors := ts; trace := [] |}.

Definition M (A : Type) : Type := World -> Res A * World.

Definition ret {A} (a : A) : M A := fun w => (Ok a, w).
Definition raise {A} (e : PyError) : M A := fun w => (Raise e, w).
Definition bind {A B} (m : M A) (k : A -> M B) : M B :=
  fun w => match m w with
           | (Ok a, w') => k a w'
           | (Raise e, w') => (Raise e, w')
           end.

Notation "'let*' x ':=' m 'in' k" := (bind m (fun x => k))
  (at level 10, x name, m at level 100, k at level 200, only parsing).

(** *** The store of tensor objects *)

Definition set_tensors (ts : list (list R)) (w : World) : World :=
  {| py_random := py_random w; np_random := np_random w;
     __isBouncingUp := __isBouncingUp w; tensors := ts; trace := trace w |}.

(** The elements of the tensor at [l] in [w] (none where the store has
    no tensor: every location handed out by [alloc] is on the store). *)
Definition elements (w : World) (l : Loc) : list R :=
  default [] (tensors w !! l).

(** [w] after the elements of the tensor at [l] were overwritten with
    [t]; the object stays the same. *)
Definition overwritten (w : World) (l : Loc) (t : list R) : World :=
  set_tensors (<[l:=t]> (tensors w)) w.

Definition deref (l : Loc) : M (list R) :=
  fun w => (Ok (elements w l), w).

Definition store (l : Loc) (t : list R) : M unit :=
  fun w => (Ok tt, overwritten w l t).

(** A new tensor object. *)
Definition alloc (t : list R) : M Loc :=
  fun w => (Ok (length (tensors w)), set_tensors (tensors w ++ [t]) w).

(** [torch.mean(t)] *)
Definition torch_mean (l : Loc) : M R :=
  let* t := deref l in ret (tmean t).

(** [t += x] *)
Definition iadd (l : Loc) (x : R) : M unit :=
  let* t := deref l in store l (map (fun v => fadd v x) t).

(** [t -= x] *)
Definition isub (l : Loc) (x : R) : M unit :=
  let* t := deref l in store l (map (fun v => fsub v x) t).

(** [t.clone()] *)
Definition clone (l : Loc) : M Loc :=
  let* t := deref l in alloc t.

(** *** The random sources, the bounce flag, the call log *)

(** [w] after [random.seed(a)]. *)
Definition reseeded (a : Z) (w : World) : World :=
  {| py_random := random_seed a; np_random := np_random w;
     __isBouncingUp := __isBouncingUp w; tensors := tensors w; trace := trace w |}.

Definition random_seed_ (a : Z) : M unit := fun w => (Ok tt, reseeded a w).

(** [np.random.default_rng(seed)] constructs a new generator object and
    returns it.  The source drops the result, and the legacy global state
    that [np.random.normal] draws from is not the new object's. *)
Definition np_random_default_rng (a : Z) : M unit := ret tt.

Definition random_random_ : M R :=
  fun w => let '(r, g) := random_random (py_random w) in
    (Ok r,
     {| py_random := g; np_random := np_random w;
        __isBouncingUp := __isBouncingUp w; tensors := tensors w; trace := trace w |}).

Definition random_randint_ (a b : Z) : M Z :=
  fun w => let '(r, g) := random_randint a b (py_random w) in
    (Ok r,
     {| py_random := g; np_random := np_random w;
        __isBouncingUp := __isBouncingUp w; tensors := tensors w; trace := trace w |}).

Definition np_random_normal_ (loc scale : R) (size : nat) : M (list R) :=
  fun w => let '(xs, g) := np_random_normal loc scale size (np_random w) in
    (Ok xs,
     {| py_random := py_random w; np_random := g;
        __isBouncingUp := __isBouncingUp w; tensors := tensors w; trace := trace w |}).

Definition get_isBouncingUp : M bool := fun w => (Ok (__isBouncingUp w), w).

(** [w] with the bounce flag negated. *)
Definition flipped (w : World) : World :=
  {| py_random := py_random w; np_random := np_random w;
     __isBouncingUp := negb (__isBouncingUp w);
     tensors := tensors w; trace := trace w |}.

Definition flip_isBouncingUp : M unit := fun w => (Ok tt, flipped w).

(** [w] after one more call was made. *)
Definition logged (w : World) (e : Event) : World :=
  {| py_random := py_random w; np_random := np_random w;
     __isBouncingUp := __isBouncingUp w; tensors := tensors w;
     trace := trace w ++ [e] |}.

Definition log (e : Event) : M unit := fun w => (Ok tt, logged w e).

(** [xs[i]], raising IndexError out of range. *)
Definition index {A} (xs : list A) (i : nat) : M A :=
  fun w => match xs !! i with
           | Some a => (Ok a, w)
           | None => (Raise IndexError, w)
           end.

(** ** Internal functions of [MusicVisualizer] *)

(** [_createLatent(size)]: a new tensor of normal noise; [size] is the
    number of elements of the shape asked for. *)
Definition _createLatent (size : nat) : M Loc :=
  let* xs := np_random_normal_ (lit 3) (lit (5 # 2)) size in
  alloc xs.

(** [_applyFeatToLatent(latent, method, modLimit, modifier)] *)
Definition _applyFeatToLatent
  (latent : Loc) (method : string) (modLimit modifier : R) : M Loc :=
  if String.eqb method FEAT_APPLY_METHOD_ADD then
    let* m := torch_mean latent in
    if flt (lit 0) modLimit && flt modLimit (fadd m modifier) then
      ret latent
    else
      let* _ := iadd latent modifier in
      ret latent
  else
    let* m := torch_mean latent in
    if flt (lit 0) modLimit && flt (fsub m modifier) (fneg modLimit) then
      ret latent
    else
      let* _ := isub latent modifier in
      ret latent.

(** [_iterateLatentByMode(latent, latentMode, modLimit, modifier)] *)
Definition _iterateLatentByMode
  (latent : Loc) (latentMode : string) (modLimit modifier : R) : M Loc :=
  let* latentMode :=
    if String.eqb latentMode LATENT_MODE_FLOW then
      let* r := random_random_ in
      if flt r (lit (1 # 2)) then ret LATENT_MODE_INCREASE
      else ret LATENT_MODE_DECREASE
    else ret latentMode in
  let* latentMode :=
    if String.eqb latentMode LATENT_MODE_BOUNCE then
      if flt (lit 0) modLimit then
        let* curLatentMean := torch_mean latent in
        let* up := get_isBouncingUp in
        let nextValue :=
          if up then fadd curLatentMean modifier
          else fsub curLatentMean modifier in
        if fle (fneg modLimit) nextValue && fle nextValue modLimit then
          ret (if up then LATENT_MODE_INCREASE else LATENT_MODE_DECREASE)
        else
          let* _ := flip_isBouncingUp in
          ret (if up then LATENT_MODE_DECREASE else LATENT_MODE_INCREASE)
      else ret LATENT_MODE_INCREASE
    else ret latentMode in
  if String.eqb latentMode LATENT_MODE_INCREASE then
    _applyFeatToLatent latent FEAT_APPLY_METHOD_ADD modLimit modifier
  else if String.eqb latentMode LATENT_MODE_DECREASE then
    _applyFeatToLatent latent FEAT_APPLY_METHOD_SUBTRACT modLimit modifier
  else if String.eqb latentMode LATENT_MODE_GAUSS then
    let* t := deref latent in
    _createLatent (length t)
  else
    ret latent.

(** [_iterateSeedByMode(seed, seedMode)] *)
Definition _iterateSeedByMode (seed : Z) (seedMode : string) : M Z :=
  if String.eqb seedMode SEED_MODE_RANDOM then
    random_randint_ 0 18446744073709551615
  else if String.eqb seedMode SEED_MODE_INCREASE then
    ret (seed + 1)%Z
  else if String.eqb seedMode SEED_MODE_DECREASE then
    ret (seed - 1)%Z
  else
    ret seed.

(** ** [process] *)

(** The names the loop of [process] rebinds from frame to frame.  The
    output stack is kept as the list of its slices: the first frame starts
    it, each later frame is stacked under it. *)
Record Locals : Type := {
  seed : Z;
  promptPos : Conditioning;
  promptNeg : Conditioning;
  outputTensor : option (list (list R));
  latentTensorMeans : list R;
  latentTensor : Loc
}.

(** How a pass through the loop body ends: at its end, or at [break]. *)
Inductive Ctl : Type :=
| Continue (s : Locals)
| Break (s : Locals).

(** What [process] returns: [{"samples": outputTensor}] and the charts. *)
Record Output : Type := {
  samples : option (list (list R));
  chartImages : list ChartImage
}.

(** Both conditionings of [prompts[i]]. *)
Definition buildPrompts
  (prompts : list (MbmPrompt R)) (i : nat) : M (Conditioning * Conditioning) :=
  let* p := index prompts i in
  let* _ := log (EvPrompt i) in
  ret (buildComfyUiPrompt (positive p) (positivePool p),
       buildComfyUiPrompt (negative p) (negativePool p)).

(** The sampler call; it reads the latent and returns a new tensor. *)
Definition sample
  (ks : KSamplerSettings R Model) (sd : Z) (pos neg : Conditioning)
  (latent : Loc) : M (list R) :=
  let* t := deref latent in
  let* _ := log (EvSample sd pos neg t) in
  ret (common_ksampler ks sd pos neg t).

(** [torch.vstack((outputTensor, imgTensor))], or the first slice. *)
Definition vstack (out : option (list (list R))) (img : list R)
  : option (list (list R)) :=
  match out with
  | None => Some [img]
  | Some o => Some (o ++ [img])
  end.

Section Process.

Variable prompts : list (MbmPrompt R).
Variable latent_mods : list R.
Variable seed_mode : string.
Variable latent_mode : string.
Variable image_limit : Z.
Variable latent_mod_limit : R.
Variable ks : KSamplerSettings R Model.

(** The body of [for i in range(desiredFrames)].  The progress-bar
    postfix only formats values for display and is left out. *)
Definition frame (desiredFrames promptCount : nat) (i : nat) (s : Locals) : M Ctl :=
  let* modifier := index latent_mods i in
  let* lt := _iterateLatentByMode (latentTensor s) latent_mode latent_mod_limit modifier in
  let* m := torch_mean lt in
  let means := <[i:=m]> (latentTensorMeans s) in
  let* imgTensor := sample ks (seed s) (promptPos s) (promptNeg s) lt in
  let out := vstack (outputTensor s) imgTensor in
  if (0 <? image_limit)%Z && (image_limit - 1 <=? Z.of_nat i)%Z then
    ret (Break {| seed := seed s; promptPos := promptPos s; promptNeg := promptNeg s;
                  outputTensor := out; latentTensorMeans := means; latentTensor := lt |})
  else
    let* sd := _iterateSeedByMode (seed s) seed_mode in
    let* _ := log (EvSeed sd) in
    if (1 <? promptCount) && (i + 1 <? desiredFrames) then
      let* pp := buildPrompts prompts (i + 1) in
      ret (Continue {| seed := sd; promptPos := fst pp; promptNeg := snd pp;
                       outputTensor := out; latentTensorMeans := means;
                       latentTensor := lt |})
    else
      ret (Continue {| seed := sd; promptPos := promptPos s; promptNeg := promptNeg s;
                       outputTensor := out; latentTensorMeans := means;
                       latentTensor := lt |}).

(** [for i in range(i, i + n)]: the frames still to run. *)
Fixpoint frames (desiredFrames promptCount : nat) (n i : nat) (s : Locals) : M Locals :=
  match n with
  | 0 => ret s
  | S n' =>
      let* c := frame desiredFrames promptCount i s in
      match c with
      | Break s' => ret s'
      | Continue s' => frames desiredFrames promptCount n' (S i) s'
      end
  end.

(** [process(prompts, latent_mods, seed, latent_image, seed_mode,
    latent_mode, image_limit, latent_mod_limit, model, steps, ...)];
    [latent_image] is the tensor under ["samples"]. *)
Definition process (seed0 : Z) (latent_image : Loc) : M Output :=
  let* _ := random_seed_ seed0 in
  let* _ := np_random_default_rng seed0 in
  let* p0 := index prompts 0 in
  let desiredFrames := length (positive p0) in
  let promptCount := length prompts in
  if String.eqb latent_mode LATENT_MODE_BOUNCE && fle latent_mod_limit (lit 0) then
    raise (ValueError
      "Latent Mod Limit must be set to `>0` when using the `bounce` Latent Mode")
  else if length prompts =? 0 then
    raise (ValueError "At least one prompt is required.")
  else
    let* pp := buildPrompts prompts 0 in
    let* lt := clone latent_image in
    let* s := frames desiredFrames promptCount desiredFrames 0
                {| seed := seed0; promptPos := fst pp; promptNeg := snd pp;
                   outputTensor := None;
                   latentTensorMeans := replicate desiredFrames (lit 0);
                   latentTensor := lt |} in
    let* _ := log (EvChart (latentTensorMeans s) "Latent Means") in
    ret {| samples := outputTensor s;
           chartImages := [chartData (latentTensorMeans s) "Latent Means"] |}.

End Process.

End Visualizer.

(** ** Reading a run off its outcome *)

Section Observations.

Context {R : Type} `{Scalar R} `{Host R}.

(** The latents the sampler was called on, in call order. *)
Fixpoint sampledLatents (evs : list Event) : list (list R) :=
  match evs with
  | [] => []
  | EvSample _ _ _ t :: evs' => t :: sampledLatents evs'
  | _ :: evs' => sampledLatents evs'
  end.

(** The seeds the sampler was called with, in call order. *)
Fixpoint sampledSeeds (evs : list Event) : list Z :=
  match evs with
  | [] => []
  | EvSample sd _ _ _ :: evs' => sd :: sampledSeeds evs'
  | _ :: evs' => sampledSeeds evs'
  end.

(** The results of the seed steps taken, in order. *)
Fixpoint seedSteps (evs : list Event) : list Z :=
  match evs with
  | [] => []
  | EvSeed sd :: evs' => sd :: seedSteps evs'
  | _ :: evs' => seedSteps evs'
  end.

(** The indices of the prompt frames loaded, in order. *)
Fixpoint promptLoads (evs : list Event) : list nat :=
  match evs with
  | [] => []
  | EvPrompt i :: evs' => i :: promptLoads evs'
  | _ :: evs' => promptLoads evs'
  end.

(** The series handed to the chart renderer, in call order. *)
Fixpoint chartedSeries (evs : list Event) : list (list R) :=
  match evs with
  | [] => []
  | EvChart series _ :: evs' => series :: chartedSeries evs'
  | _ :: evs' => chartedSeries evs'
  end.

(** The number of slices of an output stack. *)
Definition slices (out : option (list (list R))) : nat :=
  match out with
  | None => 0
  | Some o => length o
  end.

(** The number of frames a run is to produce: the length of the first
    prompt's positive conditioning, capped by a positive [image_limit]. *)
Definition frameCount (desiredFrames : nat) (image_limit : Z) : nat :=
  if (0 <? image_limit)%Z
  then Nat.min desiredFrames (Z.to_nat image_limit)
  else desiredFrames.

(** The mean a bounce step would move to: one [modifier] further in the
    direction [w] is bouncing. *)
Definition candidate (w : World) (latent : Loc) (modifier : R) : R :=
  if __isBouncingUp w
  then fadd (tmean (elements w latent)) modifier
  else fsub (tmean (elements w latent)) modifier.

(** The method of the direction [w] is bouncing in, and of the other one. *)
Definition currentMethod (w : World) : string :=
  if __isBouncingUp w then FEAT_APPLY_METHOD_ADD else FEAT_APPLY_METHOD_SUBTRACT.

Definition oppositeMethod (w : World) : string :=
  if __isBouncingUp w then FEAT_APPLY_METHOD_SUBTRACT else FEAT_APPLY_METHOD_ADD.

(** [break] is taken after frame [i]. *)
Definition breaks (image_limit : Z) (i : nat) : bool :=
  (0 <? image_limit)%Z && (image_limit - 1 <=? Z.of_nat i)%Z.

(** The prompt pointers move on after frame [i]. *)
Definition advances (desiredFrames promptCount i : nat) : bool :=
  (1 <? promptCount) && (i + 1 <? desiredFrames).

(** Frames still to come when [n] iterations are left from index [i]. *)
Definition remaining (image_limit : Z) (n i : nat) : nat :=
  if (0 <? image_limit)%Z then Nat.min n (Z.to_nat image_limit - i) else n.

(** The loop from index [i] with [n] iterations left ends at [break]. *)
Definition truncates (image_limit : Z) (n i : nat) : bool :=
  (0 <? image_limit)%Z && (image_limit <=? Z.of_nat (i + n))%Z.

(** The world in which the frame loop is entered: the Python generator
    reseeded, the first prompt loaded, the starting latent cloned.  The
    numpy generator and the bounce flag are as [process] found them. *)
Definition entered (seed0 : Z) (latent_image : Loc) (w : World) : World :=
  {| py_random := random_seed seed0;
     np_random := np_random w;
     __isBouncingUp := __isBouncingUp w;
     tensors := tensors w ++ [elements w latent_image];
     trace := trace w ++ [EvPrompt 0] |}.

(** The loop's names before the first frame. *)
Definition initialLocals (p0 : MbmPrompt R) (seed0 : Z) (w : World) : Locals :=
  {| seed := seed0;
     promptPos := buildComfyUiPrompt (positive p0) (positivePool p0);
     promptNeg := buildComfyUiPrompt (negative p0) (negativePool p0);
     outputTensor := None;
     latentTensorMeans := replicate (length (positive p0)) (lit 0);
     latentTensor := length (tensors w) |}.

(** What follows the loop: the chart call and the returned pair. *)
Definition finish (s : Locals) : M Output :=
  bind (log (EvChart (latentTensorMeans s) "Latent Means")) (fun _ =>
  ret {| samples := outputTensor s;
         chartImages := [chartData (latentTensorMeans s) "Latent Means"] |}).

(** Both conditionings built from a prompt frame. *)
Definition conditionings (p : MbmPrompt R) : Conditioning * Conditioning :=
  (buildComfyUiPrompt (positive p) (positivePool p),
   buildComfyUiPrompt (negative p) (negativePool p)).

(** The conditionings the sampler was called with, in call order. *)
Fixpoint sampledConditionings (evs : list Event)
  : list (Conditioning * Conditioning) :=
  match evs with
  | [] => []
  | EvSample _ pos neg _ :: evs' => (pos, neg) :: sampledConditionings evs'
  | _ :: evs' => sampledConditionings evs'
  end.

(** The prompt frame in force at frame [i]: [prompts[i]] when there is
    more than one prompt, [prompts[0]] otherwise. *)
Definition promptAt (prompts : list (MbmPrompt R)) (i : nat)
  : option (MbmPrompt R) :=
  if 1 <? length prompts then prompts !! i else prompts !! 0.

(** What the sampler returned for each of its calls, in call order. *)
Fixpoint rendered (ks : KSamplerSettings R Model) (evs : list Event)
  : list (list R) :=
  match evs with
  | [] => []
  | EvSample sd pos neg t :: evs' =>
      common_ksampler ks sd pos neg t :: rendered ks evs'
  | _ :: evs' => rendered ks evs'
  end.

(** What a stretch of a run in the modes given leaves alone between [w]
    and [w2]: the bounce flag unless the latent mode is [bounce], numpy's
    generator unless it is [guassian], Python's unless it is [flow] or the
    seed mode is [random]; and it does not call the chart renderer. *)
Definition leftAlone (latent_mode seed_mode : string) (w w2 : World) : Prop :=
  (String.eqb latent_mode LATENT_MODE_BOUNCE = false ->
   __isBouncingUp w2 = __isBouncingUp w)
  /\ (String.eqb latent_mode LATENT_MODE_GAUSS = false ->
      np_random w2 = np_random w)
  /\ (String.eqb latent_mode LATENT_MODE_FLOW = false ->
      String.eqb seed_mode SEED_MODE_RANDOM = false ->
      py_random w2 = py_random w)
  /\ exists evs, trace w2 = trace w ++ evs /\ chartedSeries evs = [].

(** The seed after one step in a mode that does not draw. *)
Definition stepSeed (seedMode : string) (sd : Z) : Z :=
  if String.eqb seedMode SEED_MODE_INCREASE then (sd + 1)%Z
  else if String.eqb seedMode SEED_MODE_DECREASE then (sd - 1)%Z
  else sd.

End Observations.

(** ** Running the code: rational scalars and stand-in collaborators *)

(** Exact rationals, kept in lowest terms.  The mean of no elements is
    taken as 0. *)
Definition Qmean (t : list Q) : Q :=
  Qred (fold_right Qplus 0%Q t / inject_Z (Z.of_nat (length t))).

#[export] Instance Qscalar : Scalar Q.
Proof.
  refine {| lit := Qred;
            fadd := fun x y => Qred (x + y);
            fsub := fun x y => Qred (x - y);
            fneg := fun x => Qred (- x);
            flt := fun x y => negb (Qle_bool y x);
            fle := Qle_bool;
            tmean := Qmean |}.
  intros x y Hxy. now rewrite Hxy.
Defined.

(** Stand-ins for the collaborators: generators that count their draws,
    a sampler that hands the latent back, a prompt builder and a chart
    renderer that keep what they were given. *)
#[export] Instance TestHost : Host Q := {|
  PyRandom := Z;
  NpRandom := Z;
  Conditioning := list (list Q) * list Q;
  Model := unit;
  ChartImage := list Q * string;
  random_seed := fun a => a;
  random_random := fun g => (if Z.even g then 1 # 4 else 3 # 4, (g + 1)%Z);
  random_randint := fun a b g => ((a + g mod (b - a + 1))%Z, (g + 1)%Z);
  np_random_normal := fun loc scale size g =>
    (replicate size (Qred (loc + scale * inject_Z g)), (g + 1)%Z);
  buildComfyUiPrompt := fun payload pool => (payload, pool);
  common_ksampler := fun _ _ _ _ t => t;
  chartData := fun series label => (series, label)
|}.

Definition testSettings : KSamplerSettings Q (@Model Q TestHost) :=
  {| model := tt; steps := 20; cfg := 8%Q; sampler_name := "euler";
     scheduler := "normal"; denoise := 1%Q |}.

(** A prompt frame whose positive conditioning has [n] rows. *)
Definition testPrompt (n : nat) : MbmPrompt Q :=
  {| positive := replicate n [1%Q]; negative := replicate n [0%Q];
     positivePool := []; negativePool := [] |}.

(** A prompt frame of [n] rows that carries the number [k]. *)
Definition numberedPrompt (k : Z) (n : nat) : MbmPrompt Q :=
  {| positive := replicate n [inject_Z k]; negative := replicate n [0%Q];
     positivePool := [inject_Z k]; negativePool := [] |}.

(** A new node in a process holding one 2-element latent of mean [m]. *)
Definition startWorld (m : Q) : World := freshWorld (R:=Q) 0%Z 0%Z [[m; m]].

(** The trajectory a run hands to the chart renderer. *)
Definition trajectory (run : Res Output * World) : list (list Q) :=
  chartedSeries (trace (snd run)).

(** Ten frames, ten prompt frames, [image_limit = 3]. *)
Definition limitedRun : Res Output * World :=
  process (replicate 10 (testPrompt 10)) (replicate 10 1%Q) "increase" "increase"
    3 5%Q testSettings 7 0 (startWorld 0).

(** Two frames of [bounce] with limit 1 and modifier 1 from mean 0. *)
Definition bounceRun (w : World) : Res Output * World :=
  process [testPrompt 2] [1%Q; 1%Q] "fixed" "bounce" (-1) 1%Q testSettings 7 0 w.

(** Two frames of [guassian] noise, seed 7. *)
Definition gaussRun (w : World) : Res Output * World :=
  process [testPrompt 2] [1%Q; 1%Q] "fixed" "guassian" (-1) 5%Q testSettings 7 0 w.

(** The latents a run sampled after the world [w]'s calls. *)
Definition newLatents (w : World) (run : Res Output * World) : list (list Q) :=
  drop (length (sampledLatents (trace w))) (sampledLatents (trace (snd run))).

(** Three frames, three numbered prompt frames, seeds stepping down. *)
Definition numberedRun : Res Output * World :=
  process [numberedPrompt 0 3; numberedPrompt 1 3; numberedPrompt 2 3]
    (replicate 3 1%Q) "decrease" "increase" (-1) 5%Q testSettings 1 0
    (startWorld 0).

(** Three frames due, two prompt frames. *)
Definition shortPromptsRun : Res Output * World :=
  process [testPrompt 3; testPrompt 3] (replicate 3 1%Q) "increase" "increase"
    0 5%Q testSettings 7 0 (startWorld 0).

(** Three frames due, two modifiers. *)
Definition shortModifiersRun : Res Output * World :=
  process [testPrompt 3] [1%Q; 1%Q] "increase" "increase" 0 5%Q testSettings
    7 0 (startWorld 0).

(** * Properties *)

Section LatentRecurrence.

Context {R : Type} `{Scalar R} `{Host R}.

Lemma applyFeat_add latent modLimit modifier w :
  _applyFeatToLatent latent FEAT_APPLY_METHOD_ADD modLimit modifier w =
  (Ok latent,
   if flt (lit 0) modLimit && flt modLimit (fadd (tmean (elements w latent)) modifier)
   then w
   else overwritten w latent (map (fun v => fadd v modifier) (elements w latent))).
Proof.
  unfold _applyFeatToLatent, torch_mean, iadd, deref, store, bind, ret.
  simpl.
  destruct (flt (lit 0) modLimit && flt modLimit _); reflexivity.
Qed.

Lemma applyFeat_subtract latent modLimit modifier w :
  _applyFeatToLatent latent FEAT_APPLY_METHOD_SUBTRACT modLimit modifier w =
  (Ok latent,
   if flt (lit 0) modLimit &&
      flt (fsub (tmean (elements w latent)) modifier) (fneg modLimit)
   then w
   else overwritten w latent (map (fun v => fsub v modifier) (elements w latent))).
Proof.
  unfold _applyFeatToLatent, torch_mean, isub, deref, store, bind, ret.
  simpl.
  destruct (flt (lit 0) modLimit && flt _ (fneg modLimit)); reflexivity.
Qed.

(** C1. [_applyFeatToLatent] with method [add] hands back the same tensor
    object, untouched when [modLimit > 0] and [mean(latent) + modifier >
    modLimit], and otherwise with [modifier] added to every element; with
    method [subtract] it hands it back untouched when [modLimit > 0] and
    [mean(latent) - modifier < -modLimit], and otherwise with [modifier]
    subtracted from every element.  No other tensor, generator, flag or
    call is affected.  When [modLimit <= 0] neither bound is looked at:
    the add or subtract is always applied. *)
Theorem applyFeatToLatent_bounded
  (latent : Loc) (modLimit modifier : R) (w : World) :
  let t := elements w latent in
  let added := overwritten w latent (map (fun v => fadd v modifier) t) in
  let subtracted := overwritten w latent (map (fun v => fsub v modifier) t) in
  _applyFeatToLatent latent FEAT_APPLY_METHOD_ADD modLimit modifier w =
    (Ok latent,
     if flt (lit 0) modLimit && flt modLimit (fadd (tmean t) modifier)
     then w else added)
  /\ _applyFeatToLatent latent FEAT_APPLY_METHOD_SUBTRACT modLimit modifier w =
    (Ok latent,
     if flt (lit 0) modLimit && flt (fsub (tmean t) modifier) (fneg modLimit)
     then w else subtracted)
  /\ (fle modLimit (lit 0) = true ->
      _applyFeatToLatent latent FEAT_APPLY_METHOD_ADD modLimit modifier w =
        (Ok latent, added)
      /\ _applyFeatToLatent latent FEAT_APPLY_METHOD_SUBTRACT modLimit modifier w =
        (Ok latent, subtracted)).
Proof.
  intros t added subtracted.
  split; [apply applyFeat_add|].
  split; [apply applyFeat_subtract|].
  intros Hle. apply fle_not_flt in Hle.
  rewrite applyFeat_add, applyFeat_subtract, Hle. simpl. auto.
Qed.

Lemma applyFeat_flag latent method modLimit modifier w :
  __isBouncingUp (snd (_applyFeatToLatent latent method modLimit modifier w)) =
  __isBouncingUp w.
Proof.
  unfold _applyFeatToLatent, torch_mean, iadd, isub, deref, store, bind, ret.
  destruct (String.eqb method FEAT_APPLY_METHOD_ADD); simpl;
    match goal with |- context [if ?c then _ else _] => destruct c end;
    reflexivity.
Qed.

Lemma iterateLatent_bounce latent modLimit modifier w :
  _iterateLatentByMode latent LATENT_MODE_BOUNCE modLimit modifier w =
  if flt (lit 0) modLimit then
    if fle (fneg modLimit) (candidate w latent modifier) &&
       fle (candidate w latent modifier) modLimit
    then _applyFeatToLatent latent (currentMethod w) modLimit modifier w
    else _applyFeatToLatent latent (oppositeMethod w) modLimit modifier (flipped w)
  else _applyFeatToLatent latent FEAT_APPLY_METHOD_ADD modLimit modifier w.
Proof.
  unfold _iterateLatentByMode, candidate, currentMethod, oppositeMethod.
  unfold bind at 1 2. simpl.
  destruct (flt (lit 0) modLimit); [|reflexivity].
  unfold torch_mean, get_isBouncingUp, flip_isBouncingUp, deref, bind, ret.
  simpl.
  destruct (__isBouncingUp w); simpl;
    match goal with |- context [fle ?a ?b && fle ?b ?c] =>
      destruct (fle a b && fle b c) end;
    reflexivity.
Qed.

(** C2. A [bounce] step with [modLimit > 0] looks at the candidate
    [mean(latent) + modifier] (bouncing up) or [mean(latent) - modifier]
    (bouncing down).  If [-modLimit <= candidate <= modLimit], both ends
    included, it applies the current direction and leaves the flag as it
    was; otherwise it negates the flag and applies the opposite direction.
    With [modLimit <= 0] the step is the add direction. *)
Theorem bounce_step (latent : Loc) (modLimit modifier : R) (w : World) :
  let c := candidate w latent modifier in
  let step := _iterateLatentByMode latent LATENT_MODE_BOUNCE modLimit modifier w in
  (flt (lit 0) modLimit = true ->
   fle (fneg modLimit) c && fle c modLimit = true ->
   step = _applyFeatToLatent latent (currentMethod w) modLimit modifier w
   /\ __isBouncingUp (snd step) = __isBouncingUp w)
  /\ (flt (lit 0) modLimit = true ->
      fle (fneg modLimit) c && fle c modLimit = false ->
      step = _applyFeatToLatent latent (oppositeMethod w) modLimit modifier (flipped w)
      /\ __isBouncingUp (snd step) = negb (__isBouncingUp w))
  /\ (fle modLimit (lit 0) = true ->
      step = _applyFeatToLatent latent FEAT_APPLY_METHOD_ADD modLimit modifier w).
Proof.
  intros c step. subst c step.
  rewrite iterateLatent_bounce.
  split; [|split].
  - intros Hpos Hin. rewrite Hpos, Hin.
    split; [reflexivity | apply applyFeat_flag].
  - intros Hpos Hout. rewrite Hpos, Hout.
    split; [reflexivity | now rewrite applyFeat_flag].
  - intros Hle. apply fle_not_flt in Hle. now rewrite Hle.
Qed.

End LatentRecurrence.

Section Orchestrator.

Context {R : Type} `{Scalar R} `{Host R}.

Lemma sampledLatents_app (a b : list Event) :
  sampledLatents (a ++ b) = sampledLatents a ++ sampledLatents b.
Proof. induction a as [|[] a IH]; simpl; congruence. Qed.

Lemma sampledSeeds_app (a b : list Event) :
  sampledSeeds (a ++ b) = sampledSeeds a ++ sampledSeeds b.
Proof. induction a as [|[] a IH]; simpl; congruence. Qed.

Lemma seedSteps_app (a b : list Event) :
  seedSteps (a ++ b) = seedSteps a ++ seedSteps b.
Proof. induction a as [|[] a IH]; simpl; congruence. Qed.

Lemma promptLoads_app (a b : list Event) :
  promptLoads (a ++ b) = promptLoads a ++ promptLoads b.
Proof. induction a as [|[] a IH]; simpl; congruence. Qed.

Lemma chartedSeries_app (a b : list Event) :
  chartedSeries (a ++ b) = chartedSeries a ++ chartedSeries b.
Proof. induction a as [|[] a IH]; simpl; congruence. Qed.

Lemma take_S_insert {A} (l : list A) i x :
  i < length l -> take (S i) (<[i:=x]> l) = take i l ++ [x].
Proof.
  revert i. induction l as [|a l IH]; intros [|i] Hi; simpl in *; try lia.
  - now rewrite take_0.
  - f_equal. apply IH. lia.
Qed.

Lemma slices_vstack out (img : list R) : slices (vstack out img) = S (slices out).
Proof. destruct out; simpl; [rewrite length_app; simpl; lia | reflexivity]. Qed.

(** What a latent step does to the world: it never raises and makes no
    call; it either hands back the tensor it was given, overwritten in
    place or untouched, or a new tensor object. *)
Lemma iterateLatent_effect latent mode modLimit modifier w :
  exists lt w',
    _iterateLatentByMode latent mode modLimit modifier w = (Ok lt, w')
    /\ trace w' = trace w
    /\ ((lt = latent /\ exists t, tensors w' = <[latent:=t]> (tensors w))
        \/ (lt = length (tensors w) /\ exists t, tensors w' = tensors w ++ [t])).
Proof.
  assert (Hid : exists t, tensors w = <[latent:=t]> (tensors w)).
  { destruct (tensors w !! latent) as [t|] eqn:Ht.
    - exists t. now rewrite list_insert_id.
    - exists []. rewrite list_insert_ge; [reflexivity|].
      now apply lookup_ge_None. }
  unfold _iterateLatentByMode, _applyFeatToLatent, _createLatent, torch_mean,
    iadd, isub, deref, store, alloc, random_random_, np_random_normal_,
    get_isBouncingUp, flip_isBouncingUp, overwritten, set_tensors, bind, ret.
  repeat match goal with
    | |- context [random_random ?g] => destruct (random_random g)
    | |- context [np_random_normal ?a ?b ?n ?g] =>
        destruct (np_random_normal a b n g)
    | |- context [if ?c then _ else _] => destruct c; simpl
    end;
    do 2 eexists; (split; [reflexivity|]); simpl; (split; [reflexivity|]);
    first [ left; split; [reflexivity|]; first [exact Hid | eexists; reflexivity]
          | right; split; [reflexivity|]; eexists; reflexivity ].
Qed.

(** A seed step never raises, makes no call and touches no tensor. *)
Lemma iterateSeed_effect sd mode w :
  exists sd' w',
    _iterateSeedByMode sd mode w = (Ok sd', w')
    /\ trace w' = trace w /\ tensors w' = tensors w
    /\ __isBouncingUp w' = __isBouncingUp w /\ np_random w' = np_random w.
Proof.
  unfold _iterateSeedByMode, random_randint_, ret.
  repeat match goal with
    | |- context [random_randint ?a ?b ?g] => destruct (random_randint a b g)
    | |- context [if ?c then _ else _] => destruct c
    end; do 2 eexists; (split; [reflexivity|]); simpl; auto.
Qed.

Section Loop.

Variable prompts : list (MbmPrompt R).
Variable latent_mods : list R.
Variable seed_mode : string.
Variable latent_mode : string.
Variable image_limit : Z.
Variable latent_mod_limit : R.
Variable ks : KSamplerSettings R Model.

(** One pass through the loop body when its two index accesses are in
    range: the latent step, then the sampler call on the stepped latent,
    then either [break] or the seed step and, if due, the next prompt. *)
Lemma frame_run D P i s w x :
  latent_mods !! i = Some x ->
  (advances D P i = true -> breaks image_limit i = false -> is_Some (prompts !! (i + 1))) ->
  exists lt w1 c w2,
    _iterateLatentByMode (latentTensor s) latent_mode latent_mod_limit x w
      = (Ok lt, w1)
    /\ frame prompts latent_mods seed_mode latent_mode image_limit
         latent_mod_limit ks D P i s w = (Ok c, w2)
    /\ tensors w2 = tensors w1
    /\ let t := elements w1 lt in
       let out := vstack (outputTensor s)
                    (common_ksampler ks (seed s) (promptPos s) (promptNeg s) t) in
       let means := <[i:=tmean t]> (latentTensorMeans s) in
       let ev := EvSample (seed s) (promptPos s) (promptNeg s) t in
       if breaks image_limit i then
         c = Break {| seed := seed s; promptPos := promptPos s;
                      promptNeg := promptNeg s; outputTensor := out;
                      latentTensorMeans := means; latentTensor := lt |}
         /\ trace w2 = trace w ++ [ev]
       else
         exists sd pos neg,
           c = Continue {| seed := sd; promptPos := pos; promptNeg := neg;
                           outputTensor := out; latentTensorMeans := means;
                           latentTensor := lt |}
           /\ trace w2 = trace w ++ ev :: EvSeed sd ::
                 (if advances D P i then [EvPrompt (i + 1)] else []).
Proof.
  intros Hx Hp.
  destruct (iterateLatent_effect (latentTensor s) latent_mode latent_mod_limit x w)
    as (lt & w1 & Hstep & Htr & _).
  exists lt, w1.
  unfold frame, index. unfold bind at 1. rewrite Hx.
  unfold bind at 1. rewrite Hstep.
  unfold torch_mean, sample, deref, log, bind at 1 2 3 4 5, ret at 1 2.
  simpl. fold (breaks image_limit i). fold (advances D P i).
  destruct (breaks image_limit i) eqn:Hb.
  - do 2 eexists. split; [reflexivity|]. split; [reflexivity|].
    split; [reflexivity|]. simpl. now rewrite Htr.
  - unfold bind at 1.
    destruct (iterateSeed_effect (seed s) seed_mode
                (logged w1 (EvSample (seed s) (promptPos s) (promptNeg s)
                                     (elements w1 lt))))
      as (sd & w1' & Hsd & Htr' & Hts' & _).
    rewrite Hsd. unfold bind at 1. simpl.
    destruct (advances D P i) eqn:Ha.
    + destruct (Hp eq_refl eq_refl) as [p Hpp].
      unfold buildPrompts, index, log, bind, ret. rewrite Hpp. simpl.
      do 2 eexists. split; [reflexivity|]. split; [reflexivity|].
      split; [exact Hts'|].
      do 3 eexists. split; [reflexivity|].
      simpl. rewrite Htr'. simpl. rewrite Htr. rewrite <- !app_assoc. reflexivity.
    + unfold ret. do 2 eexists. split; [reflexivity|]. split; [reflexivity|].
      split; [exact Hts'|].
      do 3 eexists. split; [reflexivity|].
      simpl. rewrite Htr'. simpl. rewrite Htr. rewrite <- !app_assoc. reflexivity.
Qed.

(** One pass through the loop body, whatever its inputs: it raises at
    once when there is no modifier for the frame; otherwise the latent is
    stepped and sampled, and nothing after that touches a tensor or calls
    the sampler again. *)
Lemma frame_any D P i s w :
  (latent_mods !! i = None
   /\ frame prompts latent_mods seed_mode latent_mode image_limit
        latent_mod_limit ks D P i s w = (Raise IndexError, w))
  \/ exists x lt w1 r w2 tail,
       latent_mods !! i = Some x
       /\ _iterateLatentByMode (latentTensor s) latent_mode latent_mod_limit x w
            = (Ok lt, w1)
       /\ frame prompts latent_mods seed_mode latent_mode image_limit
            latent_mod_limit ks D P i s w = (r, w2)
       /\ tensors w2 = tensors w1
       /\ trace w2 = trace w ++
            EvSample (seed s) (promptPos s) (promptNeg s) (elements w1 lt) :: tail
       /\ sampledLatents tail = []
       /\ match r with
          | Ok (Continue s') | Ok (Break s') => latentTensor s' = lt
          | Raise _ => True
          end.
Proof.
  destruct (latent_mods !! i) as [x|] eqn:Hx.
  2:{ left. split; [reflexivity|]. unfold frame, index, bind. now rewrite Hx. }
  right.
  destruct (iterateLatent_effect (latentTensor s) latent_mode latent_mod_limit x w)
    as (lt & w1 & Hstep & Htr & _).
  exists x, lt, w1.
  unfold frame, index. unfold bind at 1. rewrite Hx.
  unfold bind at 1. rewrite Hstep.
  unfold torch_mean, sample, deref, log, bind at 1 2 3 4 5, ret at 1 2.
  simpl.
  destruct (_ && _).
  - do 2 eexists. exists []. split; [reflexivity|]. split; [reflexivity|].
    split; [reflexivity|]. split; [reflexivity|]. simpl.
    split; [now rewrite Htr | auto].
  - unfold bind at 1.
    destruct (iterateSeed_effect (seed s) seed_mode
                (logged w1 (EvSample (seed s) (promptPos s) (promptNeg s)
                                     (elements w1 lt))))
      as (sd & w1' & Hsd & Htr' & Hts' & _).
    rewrite Hsd. unfold bind at 1. simpl.
    destruct (_ && _).
    + unfold buildPrompts, index, log, bind, ret.
      destruct (prompts !! (i + 1)) as [p|]; simpl.
      * do 2 eexists. exists [EvSeed sd; EvPrompt (i + 1)].
        split; [reflexivity|]. split; [reflexivity|]. split; [reflexivity|].
        split; [exact Hts'|]. simpl.
        split; [|auto]. rewrite Htr'. simpl. rewrite Htr.
        now rewrite <- !app_assoc.
      * do 2 eexists. exists [EvSeed sd].
        split; [reflexivity|]. split; [reflexivity|]. split; [reflexivity|].
        split; [exact Hts'|]. simpl.
        split; [|auto]. rewrite Htr'. simpl. rewrite Htr.
        now rewrite <- !app_assoc.
    + unfold ret. do 2 eexists. exists [EvSeed sd].
      split; [reflexivity|]. split; [reflexivity|]. split; [reflexivity|].
      split; [exact Hts'|]. simpl.
      split; [|auto]. rewrite Htr'. simpl. rewrite Htr.
      now rewrite <- !app_assoc.
Qed.

(** The tensor at [l0] is out of the loop's reach once the loop works on
    another object: frames overwrite only the latent they hold, and new
    tensors are new objects. *)
Lemma frames_tensors D P l0 (t0 : list R) n : forall i s w,
  tensors w !! l0 = Some t0 ->
  latentTensor s <> l0 ->
  tensors (snd (frames prompts latent_mods seed_mode latent_mode image_limit
                  latent_mod_limit ks D P n i s w)) !! l0 = Some t0.
Proof.
  induction n as [|n IH]; intros i s w Hl0 Hne; [exact Hl0|].
  simpl. unfold bind.
  destruct (frame_any D P i s w) as
    [[_ ->] | (x & lt & w1 & r & w2 & tail & _ & Hstep & -> & Hts & _ & _ & Hr)];
    [exact Hl0|].
  destruct (iterateLatent_effect (latentTensor s) latent_mode latent_mod_limit x w)
    as (lt' & w1' & Hstep' & _ & Heff).
  rewrite Hstep in Hstep'. injection Hstep' as <- <-.
  assert (Hkeep : tensors w2 !! l0 = Some t0 /\ lt <> l0).
  { rewrite Hts. destruct Heff as [[-> [t ->]] | [-> [t ->]]].
    - split; [|exact Hne]. now rewrite list_lookup_insert_ne.
    - apply lookup_lt_Some in Hl0 as Hlt.
      split; [|lia]. now rewrite lookup_app_l. }
  destruct Hkeep as [Hl0' Hne'].
  destruct r as [[s'|s']|e]; simpl; [|exact Hl0'..].
  apply IH; [exact Hl0'|]. now rewrite Hr.
Qed.

Lemma breaks_true i :
  breaks image_limit i = true <-> (0 < image_limit /\ image_limit - 1 <= Z.of_nat i)%Z.
Proof. unfold breaks. rewrite andb_true_iff, Z.ltb_lt, Z.leb_le. tauto. Qed.

Lemma breaks_false i :
  breaks image_limit i = false <-> (image_limit <= 0 \/ Z.of_nat i < image_limit - 1)%Z.
Proof. unfold breaks. rewrite andb_false_iff, Z.ltb_ge, Z.leb_gt. tauto. Qed.

(** The loop of [process] from frame [i] on, with [n] iterations left,
    when the modifiers and the prompts reach as far as the frames do. *)
Lemma frames_run D n : forall i s w,
  i + n = D ->
  length (latentTensorMeans s) = D ->
  ((0 < image_limit)%Z -> (Z.of_nat i < image_limit)%Z) ->
  i + remaining image_limit n i <= length latent_mods ->
  (length prompts <= 1 \/ i + remaining image_limit n i <= length prompts) ->
  exists s' w' evs,
    frames prompts latent_mods seed_mode latent_mode image_limit
      latent_mod_limit ks D (length prompts) n i s w = (Ok s', w')
    /\ trace w' = trace w ++ evs
    /\ length (sampledLatents evs) = remaining image_limit n i
    /\ slices (outputTensor s') = slices (outputTensor s) + remaining image_limit n i
    /\ latentTensorMeans s' =
         take i (latentTensorMeans s) ++ map tmean (sampledLatents evs)
           ++ drop (i + remaining image_limit n i) (latentTensorMeans s)
    /\ length (seedSteps evs) =
         (if truncates image_limit n i then remaining image_limit n i - 1 else remaining image_limit n i)
    /\ (truncates image_limit n i = true ->
          exists pre sd pos neg t, evs = pre ++ [EvSample sd pos neg t])
    /\ Forall (fun j => j < i + remaining image_limit n i) (promptLoads evs)
    /\ chartedSeries evs = [].
Proof.
  induction n as [|n IH]; intros i s w Hin Hlen Hlt Hmods Hprompts.
  - exists s, w, []. simpl. unfold remaining, truncates.
    rewrite app_nil_r.
    split; [reflexivity|]. split; [reflexivity|].
    assert (Hrem : (if (0 <? image_limit)%Z
                    then Nat.min 0 (Z.to_nat image_limit - i) else 0) = 0)
      by (destruct (0 <? image_limit)%Z; reflexivity).
    rewrite Hrem. rewrite !Nat.add_0_r.
    split; [reflexivity|]. split; [reflexivity|].
    split; [now rewrite take_drop|].
    split; [now destruct (_ && _)|].
    split; [|split; [constructor | reflexivity]].
    rewrite andb_true_iff, Z.ltb_lt, Z.leb_le. intros [Hpos Hle].
    specialize (Hlt Hpos). lia.
  - assert (Hrem1 : 1 <= remaining image_limit (S n) i).
    { unfold remaining. destruct (0 <? image_limit)%Z eqn:Hpos; [|lia].
      apply Z.ltb_lt in Hpos. specialize (Hlt Hpos). lia. }
    destruct (latent_mods !! i) as [x|] eqn:Hx.
    2:{ apply lookup_ge_None in Hx. lia. }
    destruct (breaks image_limit i) eqn:Hb.
    + (* the last frame, left through [break] *)
      destruct (frame_run D (length prompts) i s w x Hx) as
        (lt & w1 & c & w2 & _ & Hframe & _ & Hc).
      { intros _ Hb'. congruence. }
      rewrite Hb in Hc. destruct Hc as [-> Htr].
      apply breaks_true in Hb. destruct Hb as [Hpos Hlast].
      specialize (Hlt Hpos).
      assert (Hrem : remaining image_limit (S n) i = 1).
      { unfold remaining. rewrite (proj2 (Z.ltb_lt _ _) Hpos). lia. }
      assert (Htrunc : truncates image_limit (S n) i = true).
      { unfold truncates. rewrite andb_true_iff, Z.ltb_lt, Z.leb_le. lia. }
      do 3 eexists. simpl. unfold bind. rewrite Hframe.
      split; [reflexivity|]. split; [exact Htr|].
      rewrite Hrem, Htrunc. simpl.
      split; [reflexivity|]. split; [rewrite slices_vstack; lia|].
      split.
      { rewrite insert_take_drop by lia.
        replace (i + 1) with (S i) by lia. reflexivity. }
      split; [reflexivity|].
      split; [intros _; exists []; simpl; eauto|].
      split; [constructor | reflexivity].
    + (* a frame the loop goes on from *)
      destruct (frame_run D (length prompts) i s w x Hx) as
        (lt & w1 & c & w2 & _ & Hframe & _ & Hc).
      { intros Ha _. unfold advances in Ha.
        apply andb_true_iff in Ha. destruct Ha as [HP HD].
        apply Nat.ltb_lt in HP. apply Nat.ltb_lt in HD.
        apply lookup_lt_is_Some.
        apply breaks_false in Hb.
        destruct Hprompts as [Hone|Hmany]; [lia|].
        unfold remaining in Hmany.
        destruct (0 <? image_limit)%Z eqn:Hpos; [|lia].
        apply Z.ltb_lt in Hpos. lia. }
      rewrite Hb in Hc. destruct Hc as (sd & pos & neg & -> & Htr).
      pose proof (proj1 (breaks_false i) Hb) as Hb'.
      assert (Hrem : remaining image_limit (S n) i = S (remaining image_limit n (S i))).
      { unfold remaining. destruct (0 <? image_limit)%Z eqn:Hpos; [|reflexivity].
        apply Z.ltb_lt in Hpos. lia. }
      assert (Htrunc : truncates image_limit (S n) i = truncates image_limit n (S i)).
      { unfold truncates. do 2 f_equal. lia. }
      match type of Hframe with
      | _ = (Ok (Continue ?x), _) => set (s1 := x) in *
      end.
      destruct (IH (S i) s1 w2) as
        (s' & w' & evs & Hrun & Htr' & Hsamp & Hsl & Hmeans & Hseeds & Hlast
           & Hloads & Hcharts).
      { lia. }
      { subst s1. simpl. now rewrite length_insert. }
      { lia. }
      { lia. }
      { destruct Hprompts; [left|right]; lia. }
      do 3 eexists. simpl. unfold bind. rewrite Hframe.
      split; [exact Hrun|].
      split; [rewrite Htr', Htr, <- app_assoc; reflexivity|].
      rewrite Hrem, Htrunc.
      rewrite !sampledLatents_app, !seedSteps_app, !promptLoads_app,
        !chartedSeries_app.
      set (adv := if advances D (length prompts) i
                  then [EvPrompt (i + 1)] else []) in *.
      assert (Hadv : sampledLatents adv = [] /\ seedSteps adv = []
                     /\ chartedSeries adv = []).
      { subst adv. destruct (advances _ _ _); auto. }
      destruct Hadv as (Ha1 & Ha2 & Ha3).
      simpl. rewrite Ha1, Ha2, Ha3. simpl.
      split; [now rewrite Hsamp|].
      split.
      { rewrite Hsl. subst s1. simpl. rewrite slices_vstack. lia. }
      split.
      { rewrite Hmeans. subst s1. simpl.
        rewrite take_S_insert by lia.
        rewrite drop_insert_lt by lia.
        rewrite Nat.add_succ_r. now rewrite <- app_assoc. }
      split.
      { rewrite Hseeds. destruct (truncates image_limit n (S i)) eqn:Ht; [|reflexivity].
        unfold truncates in Ht. apply andb_true_iff in Ht.
        destruct Ht as [Hpos Hle]. apply Z.ltb_lt in Hpos. apply Z.leb_le in Hle.
        unfold remaining. rewrite (proj2 (Z.ltb_lt _ _) Hpos). lia. }
      split.
      { intros Ht. destruct (Hlast Ht) as (pre & sd' & pos' & neg' & t' & ->).
        eexists (_ :: _ :: adv ++ pre), sd', pos', neg', t'.
        simpl. now rewrite <- app_assoc. }
      split; [|exact Hcharts].
      apply Forall_app. split.
      { subst adv. destruct (advances D (length prompts) i) eqn:Ha; [|constructor].
        constructor; [|constructor].
        unfold advances in Ha. apply andb_true_iff in Ha. destruct Ha as [_ HD].
        apply Nat.ltb_lt in HD.
        unfold remaining. destruct (0 <? image_limit)%Z eqn:Hpos; [|lia].
        apply Z.ltb_lt in Hpos. lia. }
      eapply Forall_impl; [exact Hloads|]. simpl. intros j Hj. lia.
Qed.

Abbreviation frames_ :=
  (frames prompts latent_mods seed_mode latent_mode image_limit
     latent_mod_limit ks).

(** Past validation, [process] is its loop run from [entered]. *)
Lemma process_enter p0 seed0 latent_image w :
  prompts !! 0 = Some p0 ->
  String.eqb latent_mode LATENT_MODE_BOUNCE && fle latent_mod_limit (lit 0) = false ->
  process prompts latent_mods seed_mode latent_mode image_limit
    latent_mod_limit ks seed0 latent_image w =
  bind (frames_ (length (positive p0)) (length prompts) (length (positive p0)) 0
          (initialLocals p0 seed0 w))
       finish (entered seed0 latent_image w).
Proof.
  intros Hp0 Hvalid.
  assert (Hne : (length prompts =? 0) = false).
  { apply Nat.eqb_neq. apply lookup_lt_Some in Hp0. lia. }
  unfold process, random_seed_, np_random_default_rng, index.
  unfold bind at 1 2 3, ret at 1. simpl. rewrite Hp0, Hvalid, Hne.
  unfold buildPrompts, index, log, clone, deref, alloc.
  unfold bind at 1 2 3 4 5, ret at 1. simpl. rewrite Hp0. simpl.
  reflexivity.
Qed.

(** A whole run whose inputs pass validation and reach as far as its
    frames do. *)
Lemma process_run p0 seed0 latent_image w :
  let D := length (positive p0) in
  let N := frameCount D image_limit in
  prompts !! 0 = Some p0 ->
  String.eqb latent_mode LATENT_MODE_BOUNCE && fle latent_mod_limit (lit 0) = false ->
  N <= length latent_mods ->
  (length prompts = 1 \/ N <= length prompts) ->
  exists out w' evs series,
    process prompts latent_mods seed_mode latent_mode image_limit
      latent_mod_limit ks seed0 latent_image w = (Ok out, w')
    /\ trace w' = trace w ++ EvPrompt 0 :: evs ++ [EvChart series "Latent Means"]
    /\ length (sampledLatents evs) = N
    /\ slices (samples out) = N
    /\ series = map tmean (sampledLatents evs) ++ replicate (D - N) (lit 0)
    /\ chartImages out = [chartData series "Latent Means"]
    /\ length (seedSteps evs) = (if truncates image_limit D 0 then N - 1 else N)
    /\ (truncates image_limit D 0 = true ->
          exists pre sd pos neg t, evs = pre ++ [EvSample sd pos neg t])
    /\ Forall (fun j => j < N) (promptLoads evs)
    /\ chartedSeries evs = [].
Proof.
  intros D N Hp0 Hvalid Hmods Hprompts.
  assert (HN : remaining image_limit D 0 = N).
  { unfold remaining, N, frameCount. now rewrite Nat.sub_0_r. }
  destruct (frames_run D D 0 (initialLocals p0 seed0 w)
              (entered seed0 latent_image w))
    as (s' & w' & evs & Hrun & Htr & Hsamp & Hsl & Hmeans & Hseeds & Hlast
          & Hloads & Hcharts).
  { reflexivity. }
  { simpl. apply length_replicate. }
  { auto. }
  { rewrite HN. exact Hmods. }
  { rewrite HN. destruct Hprompts; [left|right]; lia. }
  rewrite HN in *. simpl in Hloads, Hmeans, Hsl.
  exists {| samples := outputTensor s';
            chartImages := [chartData (latentTensorMeans s') "Latent Means"] |},
    (logged w' (EvChart (latentTensorMeans s') "Latent Means")), evs,
    (latentTensorMeans s').
  rewrite (process_enter p0) by assumption.
  unfold bind at 1. fold D. rewrite Hrun.
  split; [reflexivity|].
  split.
  { simpl. rewrite Htr. simpl. rewrite <- !app_assoc. reflexivity. }
  split; [exact Hsamp|]. split; [exact Hsl|].
  split.
  { rewrite Hmeans. simpl. rewrite drop_replicate. reflexivity. }
  split; [reflexivity|].
  split; [exact Hseeds|]. split; [exact Hlast|].
  split; [exact Hloads | exact Hcharts].
Qed.

(** A pass through the loop body that does not raise found its modifier
    and, where it loaded the next prompt, found that too. *)
Lemma frame_ok_in_range D P i s w c w2 :
  frame prompts latent_mods seed_mode latent_mode image_limit
    latent_mod_limit ks D P i s w = (Ok c, w2) ->
  is_Some (latent_mods !! i)
  /\ (advances D P i = true -> breaks image_limit i = false ->
      is_Some (prompts !! (i + 1))).
Proof.
  intros Hframe.
  destruct (latent_mods !! i) as [x|] eqn:Hx.
  2:{ unfold frame, index, bind in Hframe. rewrite Hx in Hframe. discriminate. }
  split; [eauto|]. intros Ha Hb.
  destruct (prompts !! (i + 1)) as [p|] eqn:Hp; [eauto|]. exfalso.
  destruct (iterateLatent_effect (latentTensor s) latent_mode latent_mod_limit x w)
    as (lt & w1 & Hstep & _).
  unfold frame, index in Hframe. unfold bind at 1 in Hframe. rewrite Hx in Hframe.
  unfold bind at 1 in Hframe. rewrite Hstep in Hframe.
  unfold torch_mean, sample, deref, log, bind at 1 2 3 4 5, ret at 1 2 in Hframe.
  simpl in Hframe. fold (breaks image_limit i) in Hframe.
  fold (advances D P i) in Hframe. rewrite Hb, Ha in Hframe.
  unfold bind at 1 in Hframe.
  destruct (iterateSeed_effect (seed s) seed_mode
              (logged w1 (EvSample (seed s) (promptPos s) (promptNeg s)
                                   (elements w1 lt))))
    as (sd & w1' & Hsd & _).
  rewrite Hsd in Hframe.
  unfold buildPrompts, index, log, bind, ret in Hframe. simpl in Hframe.
  rewrite Hp in Hframe. discriminate.
Qed.

(** A loop that does not raise had a modifier for each of its frames and,
    with more than one prompt, a prompt for each of them. *)
Lemma frames_ok_in_range D n : forall i s w s' w',
  frames_ D (length prompts) n i s w = (Ok s', w') ->
  i + n = D ->
  length (latentTensorMeans s) = D ->
  ((0 < image_limit)%Z -> (Z.of_nat i < image_limit)%Z) ->
  (forall j, i <= j < i + remaining image_limit n i -> j < length latent_mods)
  /\ (1 < length prompts ->
      forall j, i <= j -> j + 1 < i + remaining image_limit n i ->
                j + 1 < length prompts).
Proof.
  induction n as [|n IH]; intros i s w s' w' Hrun Hin Hlen Hlt.
  - assert (Hrem : remaining image_limit 0 i = 0)
      by (unfold remaining; destruct (0 <? image_limit)%Z; reflexivity).
    rewrite Hrem. split; intros; lia.
  - simpl in Hrun. unfold bind in Hrun.
    destruct (frame prompts latent_mods seed_mode latent_mode image_limit
                latent_mod_limit ks D (length prompts) i s w)
      as [[c|e] w2] eqn:Hframe; [|discriminate].
    destruct (frame_ok_in_range _ _ _ _ _ _ _ Hframe) as [[x Hx] Hnext].
    destruct (frame_run D (length prompts) i s w x Hx Hnext)
      as (lt & w1 & c' & w2' & _ & Hframe' & _ & Hc).
    rewrite Hframe in Hframe'. injection Hframe' as <- <-.
    apply lookup_lt_Some in Hx.
    destruct (breaks image_limit i) eqn:Hb.
    + apply breaks_true in Hb. destruct Hb as [Hpos Hlast].
      specialize (Hlt Hpos).
      assert (Hrem : remaining image_limit (S n) i = 1).
      { unfold remaining. rewrite (proj2 (Z.ltb_lt _ _) Hpos). lia. }
      rewrite Hrem. split; intros; lia.
    + destruct Hc as (sd & pos & neg & -> & _).
      pose proof (proj1 (breaks_false i) Hb) as Hb'.
      assert (Hrem : remaining image_limit (S n) i
                     = S (remaining image_limit n (S i))).
      { unfold remaining. destruct (0 <? image_limit)%Z eqn:Hpos; [|reflexivity].
        apply Z.ltb_lt in Hpos. lia. }
      destruct (IH (S i) _ w2 s' w' Hrun) as [IHmods IHprompts].
      { lia. }
      { simpl. now rewrite length_insert. }
      { lia. }
      rewrite Hrem. split.
      * intros j Hj. destruct (Nat.eq_dec j i) as [->|Hne]; [exact Hx|].
        apply IHmods. lia.
      * intros Hmany j Hij Hj.
        destruct (Nat.eq_dec j i) as [->|Hne]; [|apply IHprompts; lia].
        apply lookup_lt_is_Some. apply Hnext; [|reflexivity].
        unfold advances. rewrite andb_true_iff, !Nat.ltb_lt.
        split; [exact Hmany|].
        assert (remaining image_limit n (S i) <= n); [|lia].
        unfold remaining. destruct (0 <? image_limit)%Z; lia.
Qed.

(** In [static] mode the loop samples one and the same latent, whatever
    else happens to the run. *)
Lemma frames_static D P n : forall i s w,
  latent_mode = LATENT_MODE_STATIC ->
  exists evs,
    trace (snd (frames_ D P n i s w)) = trace w ++ evs
    /\ Forall (eq (elements w (latentTensor s))) (sampledLatents evs).
Proof.
  induction n as [|n IH]; intros i s w Hmode.
  - exists []. simpl. now rewrite app_nil_r.
  - simpl. unfold bind.
    destruct (frame_any D P i s w) as
      [[_ ->] | (x & lt & w1 & r & w2 & tail & _ & Hstep & -> & Hts & Htr & Htail & Hr)].
    { exists []. simpl. now rewrite app_nil_r. }
    rewrite Hmode in Hstep. injection Hstep as <- <-.
    assert (Hhere : Forall (eq (elements w (latentTensor s)))
              (sampledLatents
                 (EvSample (seed s) (promptPos s) (promptNeg s)
                    (elements w (latentTensor s)) :: tail))).
    { simpl. rewrite Htail. constructor; [reflexivity | constructor]. }
    destruct r as [[s'|s']|e]; simpl; try (eexists; split; [exact Htr | exact Hhere]).
    destruct (IH (S i) s' w2 Hmode) as (evs & Htr' & Hall).
    eexists. split.
    { rewrite Htr', Htr, <- app_assoc. reflexivity. }
    rewrite sampledLatents_app. apply Forall_app. split; [exact Hhere|].
    unfold elements in *. rewrite Hr, Hts in Hall. exact Hall.
Qed.

(** A run that returns passed validation and had modifiers and prompts
    for all of its frames. *)
Lemma process_ok_in_range p0 seed0 latent_image w out w' :
  let N := frameCount (length (positive p0)) image_limit in
  prompts !! 0 = Some p0 ->
  process prompts latent_mods seed_mode latent_mode image_limit
    latent_mod_limit ks seed0 latent_image w = (Ok out, w') ->
  String.eqb latent_mode LATENT_MODE_BOUNCE && fle latent_mod_limit (lit 0) = false
  /\ N <= length latent_mods
  /\ (length prompts = 1 \/ N <= length prompts).
Proof.
  intros N Hp0 Hrun.
  destruct (String.eqb latent_mode LATENT_MODE_BOUNCE
            && fle latent_mod_limit (lit 0)) eqn:Hvalid.
  { unfold process, random_seed_, np_random_default_rng, index, raise in Hrun.
    unfold bind at 1 2 3, ret in Hrun. simpl in Hrun.
    rewrite Hp0, Hvalid in Hrun. discriminate. }
  split; [reflexivity|].
  rewrite (process_enter p0) in Hrun by assumption.
  unfold bind at 1 in Hrun.
  destruct (frames_ _ _ _ _ _ _) as [[s'|e] w''] eqn:Hframes; [|discriminate].
  apply frames_ok_in_range in Hframes as [Hmods Hprompts];
    [|reflexivity|apply length_replicate|auto].
  assert (HN : remaining image_limit (length (positive p0)) 0 = N).
  { unfold remaining, N, frameCount. now rewrite Nat.sub_0_r. }
  rewrite HN in Hmods, Hprompts. simpl in Hmods, Hprompts.
  split.
  - destruct N as [|k]; [lia|]. specialize (Hmods k). lia.
  - apply lookup_lt_Some in Hp0.
    destruct (Nat.eq_dec (length prompts) 1) as [|Hne]; [now left|right].
    destruct N as [|[|k]]; [lia|lia|].
    specialize (Hprompts ltac:(lia) k). lia.
Qed.



(** The chart series of a run whose inputs pass validation and reach as
    far as its frames do. *)
Lemma chart_series_in_range p0 seed0 latent_image w :
  let D := length (positive p0) in
  let N := frameCount D image_limit in
  prompts !! 0 = Some p0 ->
  String.eqb latent_mode LATENT_MODE_BOUNCE && fle latent_mod_limit (lit 0) = false ->
  N <= length latent_mods ->
  (length prompts = 1 \/ N <= length prompts) ->
  exists out w' evs series,
    process prompts latent_mods seed_mode latent_mode image_limit
      latent_mod_limit ks seed0 latent_image w = (Ok out, w')
    /\ trace w' = trace w ++ evs
    /\ chartedSeries evs = [series]
    /\ chartImages out = [chartData series "Latent Means"]
    /\ length series = D
    /\ length (sampledLatents evs) = N
    /\ series = map tmean (sampledLatents evs) ++ replicate (D - N) (lit 0).
Proof.
  intros D N Hp0 Hvalid Hmods Hprompts.
  destruct (process_run p0 seed0 latent_image w Hp0 Hvalid Hmods Hprompts)
    as (out & w' & evs & series & Hrun & Htr & Hsamp & _ & Hseries & Hchart & _
          & _ & _ & Hnone).
  fold D N in Hsamp, Hseries.
  assert (HND : N <= D).
  { unfold N, frameCount. destruct (0 <? image_limit)%Z; lia. }
  exists out, w', (EvPrompt 0 :: evs ++ [EvChart series "Latent Means"]), series.
  split; [exact Hrun|]. split; [exact Htr|].
  split.
  { simpl. rewrite chartedSeries_app, Hnone. reflexivity. }
  split; [exact Hchart|].
  split.
  { rewrite Hseries, length_app, length_map, length_replicate, Hsamp. lia. }
  split.
  { simpl. rewrite sampledLatents_app. simpl. now rewrite app_nil_r. }
  simpl. rewrite sampledLatents_app. simpl. now rewrite app_nil_r.
Qed.

(** C10. The series handed to the chart renderer has
    [len(prompts[0].positive)] entries whatever [image_limit] is: entry
    [i] of a produced frame is the mean of the latent sampled at frame
    [i], and the entries of the frames a positive [image_limit] cut off
    are the zeros the array was created with.  This holds of every run
    that returns, and a run returns when its inputs pass validation and
    the modifiers and prompts reach as far as the frames. *)
Theorem chart_series_not_truncated p0 seed0 latent_image w :
  let D := length (positive p0) in
  let N := frameCount D image_limit in
  let run := process prompts latent_mods seed_mode latent_mode image_limit
               latent_mod_limit ks seed0 latent_image w in
  prompts !! 0 = Some p0 ->
  (String.eqb latent_mode LATENT_MODE_BOUNCE
     && fle latent_mod_limit (lit 0) = false ->
   N <= length latent_mods ->
   (length prompts = 1 \/ N <= length prompts) ->
   exists out w', run = (Ok out, w'))
  /\ (forall out w', run = (Ok out, w') ->
      exists evs series,
        trace w' = trace w ++ evs
        /\ chartedSeries evs = [series]
        /\ chartImages out = [chartData series "Latent Means"]
        /\ length series = D
        /\ length (sampledLatents evs) = N
        /\ series = map tmean (sampledLatents evs) ++ replicate (D - N) (lit 0)).
Proof.
  intros D N run Hp0.
  split.
  { intros Hvalid Hmods Hprompts.
    destruct (chart_series_in_range p0 seed0 latent_image w Hp0 Hvalid Hmods
                Hprompts) as (out & w' & _ & _ & Hrun & _).
    eauto. }
  intros out w' Hrun.
  destruct (process_ok_in_range p0 seed0 latent_image w out w' Hp0 Hrun)
    as (Hvalid & Hmods & Hprompts).
  destruct (chart_series_in_range p0 seed0 latent_image w Hp0 Hvalid Hmods
              Hprompts) as (out0 & w0 & evs & series & Hrun0 & Hrest).
  fold run in Hrun0. rewrite Hrun in Hrun0. injection Hrun0 as <- <-.
  exists evs, series. exact Hrest.
Qed.

(** C9. Whatever the mode and however the run ends, the tensor the
    caller passed under ["samples"] holds the same elements after
    [process] as before: the loop works on a clone, in-place steps
    overwrite the clone, and noise is written to new tensors. *)
Theorem process_keeps_caller_latent seed0 latent_image w (t0 : list R) :
  tensors w !! latent_image = Some t0 ->
  tensors (snd (process prompts latent_mods seed_mode latent_mode image_limit
                  latent_mod_limit ks seed0 latent_image w)) !! latent_image
  = Some t0.
Proof.
  intros Hl.
  destruct (prompts !! 0) as [p0|] eqn:Hp0.
  2:{ unfold process, random_seed_, np_random_default_rng, index, bind, ret.
      simpl. rewrite Hp0. exact Hl. }
  destruct (String.eqb latent_mode LATENT_MODE_BOUNCE
            && fle latent_mod_limit (lit 0)) eqn:Hvalid.
  { unfold process, random_seed_, np_random_default_rng, index, raise.
    unfold bind at 1 2 3, ret. simpl. rewrite Hp0, Hvalid. exact Hl. }
  rewrite (process_enter p0) by assumption.
  pose proof (frames_tensors (length (positive p0)) (length prompts)
                latent_image t0 (length (positive p0)) 0
                (initialLocals p0 seed0 w) (entered seed0 latent_image w)) as Hk.
  apply lookup_lt_Some in Hl as Hlt.
  unfold bind at 1.
  destruct (frames_ _ _ _ _ _ _) as [[s'|e] w'];
    simpl in *; apply Hk; try lia; now rewrite lookup_app_l.
Qed.

(** C7. With [latent_mode = bounce], [latent_mod_limit <= 0] and at least
    one prompt, [process] raises the ValueError of its first validation.
    By then it has reseeded Python's generator and nothing else: no call
    was made, no tensor made or changed, and the numpy generator and the
    bounce flag are as before. *)
Theorem bounce_without_limit_rejected seed0 latent_image w :
  latent_mode = LATENT_MODE_BOUNCE ->
  fle latent_mod_limit (lit 0) = true ->
  prompts <> [] ->
  process prompts latent_mods seed_mode latent_mode image_limit
    latent_mod_limit ks seed0 latent_image w =
    (Raise (ValueError
       "Latent Mod Limit must be set to `>0` when using the `bounce` Latent Mode"),
     reseeded seed0 w)
  /\ trace (reseeded seed0 w) = trace w
  /\ tensors (reseeded seed0 w) = tensors w
  /\ np_random (reseeded seed0 w) = np_random w
  /\ __isBouncingUp (reseeded seed0 w) = __isBouncingUp w.
Proof.
  intros Hmode Hle Hne.
  destruct prompts as [|p0 ps] eqn:Hprompts; [congruence|].
  unfold process, random_seed_, np_random_default_rng, index, raise.
  unfold bind at 1 2 3, ret. simpl. rewrite Hmode, Hle. simpl. auto.
Qed.

(** C5, as the code has it.  The bounce direction is state of the
    visualizer instance, not of one run: it is [True] when the instance is
    constructed, and [process] never resets it.  Past validation the frame
    loop is entered with the flag [process] found, so only the first run
    of a new instance is sure to start bouncing up. *)
Theorem bounce_flag_outlives_run p0 seed0 latent_image w :
  prompts !! 0 = Some p0 ->
  String.eqb latent_mode LATENT_MODE_BOUNCE && fle latent_mod_limit (lit 0) = false ->
  process prompts latent_mods seed_mode latent_mode image_limit
    latent_mod_limit ks seed0 latent_image w =
    bind (frames_ (length (positive p0)) (length prompts) (length (positive p0)) 0
            (initialLocals p0 seed0 w))
         finish (entered seed0 latent_image w)
  /\ __isBouncingUp (entered seed0 latent_image w) = __isBouncingUp w
  /\ (forall py np ts,
        __isBouncingUp (entered seed0 latent_image (freshWorld py np ts)) = true).
Proof.
  intros Hp0 Hvalid.
  split; [now apply process_enter|]. split; reflexivity.
Qed.

(** Whatever becomes of a [static] run, every latent it sampled has the
    elements of the caller's starting latent. *)
Lemma process_static_samples seed0 latent_image w (t0 : list R) :
  latent_mode = LATENT_MODE_STATIC ->
  tensors w !! latent_image = Some t0 ->
  exists evs,
    trace (snd (process prompts latent_mods seed_mode latent_mode image_limit
                  latent_mod_limit ks seed0 latent_image w)) = trace w ++ evs
    /\ Forall (eq t0) (sampledLatents evs).
Proof.
  intros Hmode Ht0.
  destruct (prompts !! 0) as [p0|] eqn:Hp0.
  2:{ exists []. split; [|constructor].
      unfold process, random_seed_, np_random_default_rng, index, bind, ret.
      simpl. rewrite Hp0. simpl. now rewrite app_nil_r. }
  assert (Hvalid : String.eqb latent_mode LATENT_MODE_BOUNCE
                   && fle latent_mod_limit (lit 0) = false)
    by now rewrite Hmode.
  rewrite (process_enter p0) by assumption.
  destruct (frames_static (length (positive p0)) (length prompts)
              (length (positive p0)) 0 (initialLocals p0 seed0 w)
              (entered seed0 latent_image w) Hmode) as (evs & Htr & Hall).
  assert (Hstart : elements (entered seed0 latent_image w)
                     (latentTensor (initialLocals p0 seed0 w)) = t0).
  { unfold elements, entered. simpl.
    rewrite list_lookup_middle by reflexivity. simpl.
    unfold elements. now rewrite Ht0. }
  rewrite Hstart in Hall.
  unfold bind at 1.
  destruct (frames_ _ _ _ _ _ _) as [[s'|e] w'']; simpl in Htr |- *.
  - exists (EvPrompt 0 :: evs ++ [EvChart (latentTensorMeans s') "Latent Means"]).
    split.
    { rewrite Htr, <- !app_assoc. reflexivity. }
    simpl. rewrite sampledLatents_app. simpl. now rewrite app_nil_r.
  - exists (EvPrompt 0 :: evs). split; [|exact Hall].
    rewrite Htr, <- !app_assoc. reflexivity.
Qed.

(** C8, as the code has it.  In [static] mode every sampler call of a
    run, however the run ends, gets a latent with the elements of the
    starting latent.  When the run returns, every trajectory entry of a
    produced frame is the mean of the starting latent, and the entries of
    the frames that a positive [image_limit] cut off stay 0.0: the
    trajectory is constant over the produced frames only. *)
Theorem static_run p0 seed0 latent_image w (t0 : list R) :
  let D := length (positive p0) in
  let N := frameCount D image_limit in
  let run := process prompts latent_mods seed_mode latent_mode image_limit
               latent_mod_limit ks seed0 latent_image w in
  latent_mode = LATENT_MODE_STATIC ->
  tensors w !! latent_image = Some t0 ->
  (exists evs,
     trace (snd run) = trace w ++ evs /\ Forall (eq t0) (sampledLatents evs))
  /\ (prompts !! 0 = Some p0 ->
      N <= length latent_mods ->
      (length prompts = 1 \/ N <= length prompts) ->
      exists out w' evs series,
        run = (Ok out, w')
        /\ trace w' = trace w ++ evs
        /\ sampledLatents evs = replicate N t0
        /\ chartedSeries evs = [series]
        /\ series = replicate N (tmean t0) ++ replicate (D - N) (lit 0)).
Proof.
  intros D N run Hmode Ht0.
  destruct (process_static_samples seed0 latent_image w t0 Hmode Ht0)
    as (evs0 & Htr0 & Hall).
  split; [exists evs0; split; assumption|].
  intros Hp0 Hmods Hprompts.
  assert (Hvalid : String.eqb latent_mode LATENT_MODE_BOUNCE
                   && fle latent_mod_limit (lit 0) = false)
    by now rewrite Hmode.
  destruct (process_run p0 seed0 latent_image w Hp0 Hvalid Hmods Hprompts)
    as (out & w' & evs & series & Hrun & Htr & Hsamp & _ & Hseries & _ & _
          & _ & _ & Hnone).
  fold D N in Hsamp, Hseries.
  rewrite Hrun in Htr0. simpl in Htr0. rewrite Htr in Htr0.
  apply app_inv_head in Htr0. subst evs0.
  simpl in Hall. rewrite sampledLatents_app in Hall. simpl in Hall.
  rewrite app_nil_r in Hall.
  assert (Hrep : sampledLatents evs = replicate N t0).
  { symmetry. apply replicate_as_Forall. split; [exact Hsamp | exact Hall]. }
  exists out, w', (EvPrompt 0 :: evs ++ [EvChart series "Latent Means"]), series.
  split; [exact Hrun|]. split; [exact Htr|].
  split.
  { simpl. rewrite sampledLatents_app. simpl. now rewrite app_nil_r. }
  split.
  { simpl. rewrite chartedSeries_app, Hnone. reflexivity. }
  rewrite Hseries, Hrep. f_equal. apply (fmap_replicate tmean).
Qed.

(** ** Beyond the frame count: schedules, failures, what a run leaves alone *)

Lemma sampledConditionings_app (a b : list Event) :
  sampledConditionings (a ++ b) = sampledConditionings a ++ sampledConditionings b.
Proof. induction a as [|[] a IH]; simpl; congruence. Qed.

(** What a pass through the loop body that goes on hands to the next
    frame: the stepped seed, and the next prompt's conditionings where
    the prompt pointers moved. *)
Lemma frame_continue D P i s w s1 w2 :
  frame prompts latent_mods seed_mode latent_mode image_limit
    latent_mod_limit ks D P i s w = (Ok (Continue s1), w2) ->
  (String.eqb seed_mode SEED_MODE_RANDOM = false ->
   seed s1 = stepSeed seed_mode (seed s))
  /\ (if advances D P i
      then exists p, prompts !! (i + 1) = Some p
                     /\ (promptPos s1, promptNeg s1) = conditionings p
      else promptPos s1 = promptPos s /\ promptNeg s1 = promptNeg s).
Proof.
  intros Hframe.
  destruct (latent_mods !! i) as [x|] eqn:Hx.
  2:{ unfold frame, index, bind in Hframe. rewrite Hx in Hframe. discriminate. }
  destruct (iterateLatent_effect (latentTensor s) latent_mode latent_mod_limit x w)
    as (lt & w1 & Hstep & _).
  unfold frame, index in Hframe. unfold bind at 1 in Hframe. rewrite Hx in Hframe.
  unfold bind at 1 in Hframe. rewrite Hstep in Hframe.
  unfold torch_mean, sample, deref, log, bind at 1 2 3 4 5, ret at 1 2 in Hframe.
  simpl in Hframe. fold (breaks image_limit i) in Hframe.
  fold (advances D P i) in Hframe.
  destruct (breaks image_limit i); [discriminate|].
  unfold bind at 1 in Hframe.
  set (wS := logged w1 _) in Hframe.
  assert (Hseed : String.eqb seed_mode SEED_MODE_RANDOM = false ->
                  _iterateSeedByMode (seed s) seed_mode wS
                  = (Ok (stepSeed seed_mode (seed s)), wS)).
  { intros Hr. unfold _iterateSeedByMode, stepSeed, ret. rewrite Hr.
    destruct (String.eqb seed_mode SEED_MODE_INCREASE); [reflexivity|].
    destruct (String.eqb seed_mode SEED_MODE_DECREASE); reflexivity. }
  destruct (_iterateSeedByMode (seed s) seed_mode wS) as [[sd|e] w1'] eqn:Hsd;
    [|discriminate].
  unfold bind at 1 in Hframe. simpl in Hframe.
  destruct (advances D P i).
  - unfold buildPrompts, index, log, bind, ret in Hframe. simpl in Hframe.
    destruct (prompts !! (i + 1)) as [p|] eqn:Hp; [|discriminate].
    injection Hframe as <- _. simpl. split.
    + intros Hr. specialize (Hseed Hr). congruence.
    + exists p. split; reflexivity.
  - unfold ret in Hframe. injection Hframe as <- _. simpl. split.
    + intros Hr. specialize (Hseed Hr). congruence.
    + split; reflexivity.
Qed.

(** The schedule of a loop that finds its modifiers and prompts: frame
    [i + j] is sampled with the prompt frame in force at [i + j] and, in
    a seed mode that does not draw, with the seed stepped [j] times. *)
Lemma frames_schedule D n : forall i s w,
  i + n = D ->
  length (latentTensorMeans s) = D ->
  ((0 < image_limit)%Z -> (Z.of_nat i < image_limit)%Z) ->
  i + remaining image_limit n i <= length latent_mods ->
  (length prompts <= 1 \/ i + remaining image_limit n i <= length prompts) ->
  (0 < remaining image_limit n i ->
   Some (promptPos s, promptNeg s) = conditionings <$> promptAt prompts i) ->
  exists s' w' evs,
    frames_ D (length prompts) n i s w = (Ok s', w')
    /\ trace w' = trace w ++ evs
    /\ (forall j, j < remaining image_limit n i ->
          sampledConditionings evs !! j
          = conditionings <$> promptAt prompts (i + j))
    /\ (String.eqb seed_mode SEED_MODE_RANDOM = false ->
        forall j, j < remaining image_limit n i ->
          sampledSeeds evs !! j = Some (Nat.iter j (stepSeed seed_mode) (seed s))).
Proof.
  induction n as [|n IH]; intros i s w Hin Hlen Hlt Hmods Hprompts Hcur.
  - exists s, w, []. simpl. rewrite app_nil_r.
    assert (Hrem : remaining image_limit 0 i = 0)
      by (unfold remaining; destruct (0 <? image_limit)%Z; reflexivity).
    rewrite Hrem. repeat split; intros; lia.
  - assert (Hrem1 : 1 <= remaining image_limit (S n) i).
    { unfold remaining. destruct (0 <? image_limit)%Z eqn:Hpos; [|lia].
      apply Z.ltb_lt in Hpos. specialize (Hlt Hpos). lia. }
    specialize (Hcur ltac:(lia)).
    destruct (latent_mods !! i) as [x|] eqn:Hx.
    2:{ apply lookup_ge_None in Hx. lia. }
    assert (Hnext : advances D (length prompts) i = true ->
                    breaks image_limit i = false -> is_Some (prompts !! (i + 1))).
    { intros Ha Hb. unfold advances in Ha.
      apply andb_true_iff in Ha. destruct Ha as [HP HD].
      apply Nat.ltb_lt in HP. apply Nat.ltb_lt in HD.
      apply lookup_lt_is_Some. apply breaks_false in Hb.
      destruct Hprompts as [Hone|Hmany]; [lia|].
      unfold remaining in Hmany.
      destruct (0 <? image_limit)%Z eqn:Hpos; [|lia].
      apply Z.ltb_lt in Hpos. lia. }
    destruct (frame_run D (length prompts) i s w x Hx Hnext) as
      (lt & w1 & c & w2 & _ & Hframe & _ & Hc).
    destruct (breaks image_limit i) eqn:Hb.
    + destruct Hc as [-> Htr].
      apply breaks_true in Hb. destruct Hb as [Hpos Hlast].
      specialize (Hlt Hpos).
      assert (Hrem : remaining image_limit (S n) i = 1).
      { unfold remaining. rewrite (proj2 (Z.ltb_lt _ _) Hpos). lia. }
      do 3 eexists. simpl. unfold bind. rewrite Hframe.
      split; [reflexivity|]. split; [exact Htr|].
      rewrite Hrem. split.
      * intros j Hj. replace j with 0 by lia. rewrite Nat.add_0_r. exact Hcur.
      * intros _ j Hj. replace j with 0 by lia. reflexivity.
    + destruct Hc as (sd & pos & neg & -> & Htr).
      pose proof (proj1 (breaks_false i) Hb) as Hb'.
      assert (Hrem : remaining image_limit (S n) i
                     = S (remaining image_limit n (S i))).
      { unfold remaining. destruct (0 <? image_limit)%Z eqn:Hpos; [|reflexivity].
        apply Z.ltb_lt in Hpos. lia. }
      destruct (frame_continue _ _ _ _ _ _ _ Hframe) as [Hsd Hpp].
      simpl in Hsd, Hpp.
      match type of Hframe with
      | _ = (Ok (Continue ?x), _) => set (s1 := x) in *
      end.
      destruct (IH (S i) s1 w2) as (s' & w' & evs & Hrun & Htr' & Hconds & Hseeds).
      { lia. }
      { subst s1. simpl. now rewrite length_insert. }
      { lia. }
      { lia. }
      { destruct Hprompts; [left|right]; lia. }
      { intros Hmore. subst s1. simpl.
        assert (Hn : S i < D).
        { unfold remaining in Hmore. destruct (0 <? image_limit)%Z; lia. }
        unfold promptAt in *. unfold advances in Hpp.
        destruct (1 <? length prompts) eqn:HP; simpl in Hpp.
        - rewrite (proj2 (Nat.ltb_lt (i + 1) D)) in Hpp by lia.
          destruct Hpp as (p & Hp & Heq).
          replace (S i) with (i + 1) by lia. rewrite Hp. simpl. now f_equal.
        - destruct Hpp as [-> ->]. exact Hcur. }
      do 3 eexists. simpl. unfold bind. rewrite Hframe.
      split; [exact Hrun|].
      split; [rewrite Htr', Htr, <- app_assoc; reflexivity|].
      rewrite Hrem.
      set (adv := if advances D (length prompts) i
                  then [EvPrompt (i + 1)] else []) in *.
      assert (Hadv : sampledConditionings adv = [] /\ sampledSeeds adv = []).
      { subst adv. destruct (advances _ _ _); auto. }
      destruct Hadv as (Ha1 & Ha2).
      split.
      * intros [|j] Hj; simpl.
        { rewrite Nat.add_0_r. exact Hcur. }
        rewrite sampledConditionings_app, Ha1. simpl.
        rewrite Hconds by lia. f_equal. f_equal. lia.
      * intros Hr [|j] Hj; simpl; [reflexivity|].
        rewrite sampledSeeds_app, Ha2. simpl.
        rewrite (Hseeds Hr) by lia. subst s1. simpl.
        rewrite (Hsd Hr). now rewrite <- Nat.iter_succ_r.
Qed.

(** What a latent step leaves alone: the bounce flag unless the mode is
    [bounce], numpy's generator unless it is [guassian], Python's unless it
    is [flow]. *)
Lemma iterateLatent_quiet latent mode modLimit modifier w :
  let w' := snd (_iterateLatentByMode latent mode modLimit modifier w) in
  (String.eqb mode LATENT_MODE_BOUNCE = false ->
   __isBouncingUp w' = __isBouncingUp w)
  /\ (String.eqb mode LATENT_MODE_GAUSS = false -> np_random w' = np_random w)
  /\ (String.eqb mode LATENT_MODE_FLOW = false -> py_random w' = py_random w).
Proof.
  unfold _iterateLatentByMode, _applyFeatToLatent, _createLatent, torch_mean,
    iadd, isub, deref, store, alloc, random_random_, np_random_normal_,
    get_isBouncingUp, flip_isBouncingUp, flipped, overwritten, set_tensors,
    bind, ret.
  destruct w as [py np up ts tr]. simpl.
  destruct up;
  repeat match goal with
    | |- context [random_random ?g] => destruct (random_random g)
    | |- context [np_random_normal ?a ?b ?n ?g] =>
        destruct (np_random_normal a b n g)
    | |- context [if ?c then _ else _] => destruct c eqn:?; simpl
    end;
    (split; [|split]); intros; simpl in *; first [reflexivity | congruence].
Qed.

Lemma iterateSeed_quiet sd mode w :
  String.eqb mode SEED_MODE_RANDOM = false ->
  _iterateSeedByMode sd mode w = (Ok (stepSeed mode sd), w).
Proof.
  intros Hr. unfold _iterateSeedByMode, stepSeed, ret. rewrite Hr.
  destruct (String.eqb mode SEED_MODE_INCREASE); [reflexivity|].
  destruct (String.eqb mode SEED_MODE_DECREASE); reflexivity.
Qed.

Lemma leftAlone_refl w : leftAlone latent_mode seed_mode w w.
Proof.
  repeat split; try reflexivity. exists []. now rewrite app_nil_r.
Qed.

Lemma leftAlone_trans w1 w2 w3 :
  leftAlone latent_mode seed_mode w1 w2 -> leftAlone latent_mode seed_mode w2 w3 -> leftAlone latent_mode seed_mode w1 w3.
Proof.
  intros (Hf & Hn & Hp & evs & Ht & Hc) (Hf' & Hn' & Hp' & evs' & Ht' & Hc').
  split; [intros; rewrite Hf', Hf; auto|].
  split; [intros; rewrite Hn', Hn; auto|].
  split; [intros; rewrite Hp', Hp; auto|].
  exists (evs ++ evs'). split.
  - now rewrite Ht', Ht, app_assoc.
  - now rewrite chartedSeries_app, Hc, Hc'.
Qed.

Lemma frame_outcome D P i s w r w2 :
  frame prompts latent_mods seed_mode latent_mode image_limit
    latent_mod_limit ks D P i s w = (r, w2) ->
  leftAlone latent_mode seed_mode w w2 /\ (forall e, r = Raise e -> e = IndexError).
Proof.
  intros Hframe.
  destruct (latent_mods !! i) as [x|] eqn:Hx.
  2:{ unfold frame, index, bind in Hframe. rewrite Hx in Hframe.
      injection Hframe as <- <-.
      split; [apply leftAlone_refl | congruence]. }
  destruct (iterateLatent_effect (latentTensor s) latent_mode latent_mod_limit x w)
    as (lt & w1 & Hstep & Htr & _).
  pose proof (iterateLatent_quiet (latentTensor s) latent_mode latent_mod_limit x w)
    as Hquiet.
  rewrite Hstep in Hquiet. simpl in Hquiet. destruct Hquiet as (Hf & Hn & Hp).
  unfold frame, index in Hframe. unfold bind at 1 in Hframe. rewrite Hx in Hframe.
  unfold bind at 1 in Hframe. rewrite Hstep in Hframe.
  unfold torch_mean, sample, deref, log, bind at 1 2 3 4 5, ret at 1 2 in Hframe.
  simpl in Hframe.
  set (ev := EvSample (seed s) (promptPos s) (promptNeg s) (elements w1 lt))
    in Hframe.
  assert (Hsampled : leftAlone latent_mode seed_mode w (logged w1 ev)).
  { split; [exact Hf|]. split; [exact Hn|]. split; [auto|].
    exists [ev]. simpl. now rewrite Htr. }
  destruct (_ && _).
  { injection Hframe as <- <-. split; [exact Hsampled | congruence]. }
  unfold bind at 1 in Hframe.
  destruct (iterateSeed_effect (seed s) seed_mode (logged w1 ev))
    as (sd & w1' & Hsd & Htr' & _ & Hf' & Hn').
  assert (Hp' : String.eqb seed_mode SEED_MODE_RANDOM = false ->
                py_random w1' = py_random (logged w1 ev)).
  { intros Hr. rewrite (iterateSeed_quiet _ _ _ Hr) in Hsd. congruence. }
  rewrite Hsd in Hframe. unfold bind at 1 in Hframe. simpl in Hframe.
  assert (Hseeded : leftAlone latent_mode seed_mode w (logged w1' (EvSeed sd))).
  { apply (leftAlone_trans _ _ _ Hsampled).
    split; [intros; exact Hf'|]. split; [intros; exact Hn'|].
    split; [intros; simpl; auto|].
    exists [EvSeed sd]. simpl. now rewrite Htr'. }
  destruct (_ && _).
  - unfold buildPrompts, index, log, bind, ret in Hframe.
    destruct (prompts !! (i + 1)) as [p|]; simpl in Hframe;
      injection Hframe as <- <-.
    + split; [|congruence].
      apply (leftAlone_trans _ _ _ Hseeded).
      repeat split; try reflexivity. exists [EvPrompt (i + 1)]. auto.
    + split; [exact Hseeded | congruence].
  - unfold ret in Hframe. injection Hframe as <- <-.
    split; [exact Hseeded | congruence].
Qed.

Lemma frames_outcome D P n : forall i s w r w',
  frames_ D P n i s w = (r, w') ->
  leftAlone latent_mode seed_mode w w' /\ (forall e, r = Raise e -> e = IndexError).
Proof.
  induction n as [|n IH]; intros i s w r w' Hrun.
  - simpl in Hrun. injection Hrun as <- <-.
    split; [apply leftAlone_refl | congruence].
  - simpl in Hrun. unfold bind in Hrun.
    destruct (frame prompts latent_mods seed_mode latent_mode image_limit
                latent_mod_limit ks D P i s w) as [c w2] eqn:Hframe.
    destruct (frame_outcome _ _ _ _ _ _ _ Hframe) as [Hw He].
    destruct c as [[s1|s1]|e].
    + destruct (IH _ _ _ _ _ Hrun) as [Hw' He'].
      split; [exact (leftAlone_trans _ _ _ Hw Hw') | exact He'].
    + injection Hrun as <- <-. split; [exact Hw | congruence].
    + injection Hrun as <- <-. split; [exact Hw|].
      intros e0 He0. injection He0 as <-. now apply He.
Qed.

(** A whole run, however it ends: what it leaves alone, and what it can
    raise. *)
Lemma process_outcome seed0 latent_image w r w' :
  process prompts latent_mods seed_mode latent_mode image_limit
    latent_mod_limit ks seed0 latent_image w = (r, w') ->
  (String.eqb latent_mode LATENT_MODE_BOUNCE = false ->
   __isBouncingUp w' = __isBouncingUp w)
  /\ (String.eqb latent_mode LATENT_MODE_GAUSS = false ->
      np_random w' = np_random w)
  /\ (String.eqb latent_mode LATENT_MODE_FLOW = false ->
      String.eqb seed_mode SEED_MODE_RANDOM = false ->
      py_random w' = random_seed seed0)
  /\ (forall e, r = Raise e ->
        (exists evs, trace w' = trace w ++ evs /\ chartedSeries evs = [])
        /\ (e = IndexError
            \/ (e = ValueError
                   "Latent Mod Limit must be set to `>0` when using the `bounce` Latent Mode"
                /\ latent_mode = LATENT_MODE_BOUNCE
                /\ fle latent_mod_limit (lit 0) = true))).
Proof.
  intros Hrun.
  destruct (prompts !! 0) as [p0|] eqn:Hp0.
  2:{ unfold process, random_seed_, np_random_default_rng, index, bind, ret
        in Hrun.
      simpl in Hrun. rewrite Hp0 in Hrun. injection Hrun as <- <-.
      repeat split; try reflexivity.
      - exists []. simpl. now rewrite app_nil_r.
      - left. congruence. }
  destruct (String.eqb latent_mode LATENT_MODE_BOUNCE
            && fle latent_mod_limit (lit 0)) eqn:Hvalid.
  { unfold process, random_seed_, np_random_default_rng, index, raise in Hrun.
    unfold bind at 1 2 3, ret in Hrun. simpl in Hrun.
    rewrite Hp0, Hvalid in Hrun. injection Hrun as <- <-.
    repeat split; try reflexivity.
    - exists []. simpl. now rewrite app_nil_r.
    - right. apply andb_true_iff in Hvalid. destruct Hvalid as [Hb Hle].
      apply String.eqb_eq in Hb. split; [congruence | auto]. }
  rewrite (process_enter p0) in Hrun by assumption.
  unfold bind at 1 in Hrun.
  destruct (frames_ _ _ _ _ _ _) as [c w''] eqn:Hframes.
  destruct (frames_outcome _ _ _ _ _ _ _ _ Hframes)
    as [(Hf & Hn & Hp & evs & Ht & Hc) He].
  destruct c as [s'|e].
  - unfold finish, log, bind, ret in Hrun. injection Hrun as <- <-.
    simpl. split; [exact Hf|]. split; [exact Hn|]. split; [exact Hp|].
    congruence.
  - injection Hrun as <- <-.
    split; [exact Hf|]. split; [exact Hn|]. split; [exact Hp|].
    intros e0 He0. injection He0 as <-. split.
    + exists (EvPrompt 0 :: evs). split.
      * rewrite Ht. simpl. now rewrite <- app_assoc.
      * exact Hc.
    + left. now apply He.
Qed.

(** X5. Only [bounce] moves the bounce direction: a run in any other
    latent mode, however it ends, leaves [__isBouncingUp] as it found
    it. *)
Theorem only_bounce_moves_flag seed0 latent_image w :
  String.eqb latent_mode LATENT_MODE_BOUNCE = false ->
  __isBouncingUp
    (snd (process prompts latent_mods seed_mode latent_mode image_limit
            latent_mod_limit ks seed0 latent_image w))
  = __isBouncingUp w.
Proof.
  intros Hmode.
  destruct (process _ _ _ _ _ _ _ _ _ _) as [r w'] eqn:Hrun.
  now apply (process_outcome _ _ _ _ _ Hrun).
Qed.

(** X6. The generators a run leaves alone, however it ends: numpy's
    global generator is drawn from only in [guassian] mode, and Python's
    stays where [random.seed(seed)] put it unless the latent mode is
    [flow] or the seed mode is [random]. *)
Theorem generators_left_alone seed0 latent_image w :
  let w' := snd (process prompts latent_mods seed_mode latent_mode image_limit
                   latent_mod_limit ks seed0 latent_image w) in
  (String.eqb latent_mode LATENT_MODE_GAUSS = false ->
   np_random w' = np_random w)
  /\ (String.eqb latent_mode LATENT_MODE_FLOW = false ->
      String.eqb seed_mode SEED_MODE_RANDOM = false ->
      py_random w' = random_seed seed0).
Proof.
  intros w'. subst w'.
  destruct (process _ _ _ _ _ _ _ _ _ _) as [r w'] eqn:Hrun.
  destruct (process_outcome _ _ _ _ _ Hrun) as (_ & Hn & Hp & _).
  split; assumption.
Qed.

(** X7. What [process] can raise: an IndexError, or the ValueError of the
    bounce check, and that one only in [bounce] mode with
    [latent_mod_limit <= 0].  The ValueError "At least one prompt is
    required." is never raised. *)
Theorem process_raises_only seed0 latent_image w e :
  fst (process prompts latent_mods seed_mode latent_mode image_limit
         latent_mod_limit ks seed0 latent_image w) = Raise e ->
  e <> ValueError "At least one prompt is required."
  /\ (e = IndexError
      \/ (e = ValueError
             "Latent Mod Limit must be set to `>0` when using the `bounce` Latent Mode"
          /\ latent_mode = LATENT_MODE_BOUNCE
          /\ fle latent_mod_limit (lit 0) = true)).
Proof.
  intros He.
  destruct (process _ _ _ _ _ _ _ _ _ _) as [r w'] eqn:Hrun. simpl in He.
  destruct (process_outcome _ _ _ _ _ Hrun) as (_ & _ & _ & Hraise).
  destruct (Hraise e He) as [_ Hkind].
  split; [|exact Hkind].
  destruct Hkind as [->|[-> _]]; discriminate.
Qed.

(** X8. A run that raises has not called the chart renderer: the chart
    is rendered only after the loop has run to its end. *)
Theorem failed_run_renders_no_chart seed0 latent_image w e :
  let run := process prompts latent_mods seed_mode latent_mode image_limit
               latent_mod_limit ks seed0 latent_image w in
  fst run = Raise e ->
  exists evs, trace (snd run) = trace w ++ evs /\ chartedSeries evs = [].
Proof.
  intros run He. subst run.
  destruct (process _ _ _ _ _ _ _ _ _ _) as [r w'] eqn:Hrun. simpl in He.
  destruct (process_outcome _ _ _ _ _ Hrun) as (_ & _ & _ & Hraise).
  now destruct (Hraise e He).
Qed.

Lemma sampledSeeds_length (evs : list Event) :
  length (sampledSeeds evs) = length (sampledLatents evs).
Proof. induction evs as [|[] evs IH]; simpl; congruence. Qed.

Lemma sampledConditionings_length (evs : list Event) :
  length (sampledConditionings evs) = length (sampledLatents evs).
Proof. induction evs as [|[] evs IH]; simpl; congruence. Qed.

(** The schedule of a run that returns. *)
Lemma process_schedule p0 seed0 latent_image w out w' :
  let N := frameCount (length (positive p0)) image_limit in
  prompts !! 0 = Some p0 ->
  process prompts latent_mods seed_mode latent_mode image_limit
    latent_mod_limit ks seed0 latent_image w = (Ok out, w') ->
  exists evs,
    trace w' = trace w ++ evs
    /\ length (sampledLatents evs) = N
    /\ (forall j, j < N ->
          sampledConditionings evs !! j = conditionings <$> promptAt prompts j)
    /\ (String.eqb seed_mode SEED_MODE_RANDOM = false ->
        forall j, j < N ->
          sampledSeeds evs !! j = Some (Nat.iter j (stepSeed seed_mode) seed0)).
Proof.
  intros N Hp0 Hrun.
  destruct (process_ok_in_range p0 seed0 latent_image w out w' Hp0 Hrun)
    as (Hvalid & Hmods & Hprompts).
  fold N in Hmods, Hprompts.
  destruct (process_run p0 seed0 latent_image w Hp0 Hvalid Hmods Hprompts)
    as (out0 & w0 & evs0 & series & Hrun0 & Htr0 & Hsamp & _).
  rewrite Hrun in Hrun0. injection Hrun0 as <- <-. fold N in Hsamp.
  assert (HN : remaining image_limit (length (positive p0)) 0 = N).
  { unfold remaining, N, frameCount. now rewrite Nat.sub_0_r. }
  destruct (frames_schedule (length (positive p0)) (length (positive p0)) 0
              (initialLocals p0 seed0 w) (entered seed0 latent_image w))
    as (s' & w'' & evs & Hframes & Htr & Hconds & Hseeds).
  { reflexivity. }
  { simpl. apply length_replicate. }
  { auto. }
  { rewrite HN. exact Hmods. }
  { rewrite HN. destruct Hprompts; [left|right]; lia. }
  { intros _. unfold promptAt. simpl.
    destruct (1 <? length prompts); rewrite Hp0; reflexivity. }
  rewrite HN in Hconds, Hseeds. simpl in Hconds, Hseeds.
  rewrite (process_enter p0) in Hrun by assumption.
  unfold bind at 1 in Hrun. rewrite Hframes in Hrun.
  unfold finish, log, bind, ret in Hrun. injection Hrun as _ <-.
  simpl in Htr0, Htr. rewrite Htr in Htr0.
  rewrite <- !app_assoc in Htr0. apply app_inv_head in Htr0.
  simpl in Htr0. injection Htr0 as Htr0.
  apply app_inj_tail in Htr0 as [-> _].
  exists (EvPrompt 0 :: evs0 ++ [EvChart (latentTensorMeans s') "Latent Means"]).
  split.
  { simpl. rewrite Htr. simpl. now rewrite <- !app_assoc. }
  split.
  { simpl. rewrite sampledLatents_app. simpl. now rewrite app_nil_r. }
  split.
  - intros j Hj. simpl. rewrite sampledConditionings_app. simpl.
    rewrite app_nil_r. now apply Hconds.
  - intros Hr j Hj. simpl. rewrite sampledSeeds_app. simpl.
    rewrite app_nil_r. now apply Hseeds.
Qed.

Lemma iter_stepSeed mode sd j :
  Nat.iter j (stepSeed mode) sd =
  if String.eqb mode SEED_MODE_INCREASE then (sd + Z.of_nat j)%Z
  else if String.eqb mode SEED_MODE_DECREASE then (sd - Z.of_nat j)%Z
  else sd.
Proof.
  induction j as [|j IH].
  - simpl. destruct (String.eqb mode SEED_MODE_INCREASE);
      [|destruct (String.eqb mode SEED_MODE_DECREASE)]; lia.
  - rewrite Nat.iter_succ, IH. unfold stepSeed.
    destruct (String.eqb mode SEED_MODE_INCREASE);
      [|destruct (String.eqb mode SEED_MODE_DECREASE)]; lia.
Qed.

(** X1. The seed each frame is sampled with, in a run that returns: frame
    [j] gets [seed + j] in seed mode [increase], [seed - j] in [decrease],
    and [seed] itself in [fixed] and in every mode the code does not
    name.  Nothing wraps or clamps the seed: it is passed on as the
    integer it has become. *)
Theorem sampler_seed_schedule p0 seed0 latent_image w out w' :
  let N := frameCount (length (positive p0)) image_limit in
  prompts !! 0 = Some p0 ->
  process prompts latent_mods seed_mode latent_mode image_limit
    latent_mod_limit ks seed0 latent_image w = (Ok out, w') ->
  exists evs,
    trace w' = trace w ++ evs
    /\ length (sampledSeeds evs) = N
    /\ (seed_mode = SEED_MODE_INCREASE ->
        forall j, j < N -> sampledSeeds evs !! j = Some (seed0 + Z.of_nat j)%Z)
    /\ (seed_mode = SEED_MODE_DECREASE ->
        forall j, j < N -> sampledSeeds evs !! j = Some (seed0 - Z.of_nat j)%Z)
    /\ (String.eqb seed_mode SEED_MODE_RANDOM = false ->
        String.eqb seed_mode SEED_MODE_INCREASE = false ->
        String.eqb seed_mode SEED_MODE_DECREASE = false ->
        forall j, j < N -> sampledSeeds evs !! j = Some seed0).
Proof.
  intros N Hp0 Hrun.
  destruct (process_schedule p0 seed0 latent_image w out w' Hp0 Hrun)
    as (evs & Htr & Hlen & _ & Hseeds).
  fold N in Hlen, Hseeds.
  exists evs. split; [exact Htr|].
  split; [now rewrite sampledSeeds_length|].
  split; [|split].
  - intros -> j Hj. rewrite Hseeds by (reflexivity || exact Hj).
    now rewrite iter_stepSeed.
  - intros -> j Hj. rewrite Hseeds by (reflexivity || exact Hj).
    now rewrite iter_stepSeed.
  - intros Hr Hi Hd j Hj. rewrite (Hseeds Hr) by exact Hj.
    now rewrite iter_stepSeed, Hi, Hd.
Qed.

(** X2. The prompt each frame is sampled with, in a run that returns:
    with exactly one prompt frame every sampler call gets the
    conditionings of [prompts[0]], and with more than one, frame [j] gets
    the conditionings of [prompts[j]]. *)
Theorem sampler_prompt_schedule p0 seed0 latent_image w out w' :
  let N := frameCount (length (positive p0)) image_limit in
  prompts !! 0 = Some p0 ->
  process prompts latent_mods seed_mode latent_mode image_limit
    latent_mod_limit ks seed0 latent_image w = (Ok out, w') ->
  exists evs,
    trace w' = trace w ++ evs
    /\ length (sampledConditionings evs) = N
    /\ (length prompts = 1 ->
        forall j, j < N ->
          sampledConditionings evs !! j = Some (conditionings p0))
    /\ (1 < length prompts ->
        forall j, j < N ->
          sampledConditionings evs !! j = conditionings <$> prompts !! j).
Proof.
  intros N Hp0 Hrun.
  destruct (process_schedule p0 seed0 latent_image w out w' Hp0 Hrun)
    as (evs & Htr & Hlen & Hconds & _).
  fold N in Hlen, Hconds.
  exists evs. split; [exact Htr|].
  split; [now rewrite sampledConditionings_length|].
  split.
  - intros Hone j Hj. rewrite Hconds by exact Hj.
    unfold promptAt. rewrite Hone. simpl. now rewrite Hp0.
  - intros Hmany j Hj. rewrite Hconds by exact Hj.
    unfold promptAt. now rewrite (proj2 (Nat.ltb_lt _ _) Hmany).
Qed.

(** X9. When a run returns: exactly when it passes the bounce check and
    the modifiers, and the prompts when there is more than one, reach as
    far as the frames to produce. *)
Theorem process_returns_iff p0 seed0 latent_image w :
  let N := frameCount (length (positive p0)) image_limit in
  prompts !! 0 = Some p0 ->
  (exists out w',
     process prompts latent_mods seed_mode latent_mode image_limit
       latent_mod_limit ks seed0 latent_image w = (Ok out, w'))
  <-> (String.eqb latent_mode LATENT_MODE_BOUNCE
         && fle latent_mod_limit (lit 0) = false
       /\ N <= length latent_mods
       /\ (length prompts = 1 \/ N <= length prompts)).
Proof.
  intros N Hp0. split.
  - intros (out & w' & Hrun).
    exact (process_ok_in_range p0 seed0 latent_image w out w' Hp0 Hrun).
  - intros (Hvalid & Hmods & Hprompts).
    destruct (process_run p0 seed0 latent_image w Hp0 Hvalid Hmods Hprompts)
      as (out & w' & _ & _ & Hrun & _).
    eauto.
Qed.

(** A pass through the loop body that is to load a prompt frame the
    sequence does not have: the frame is sampled, the seed stepped, and
    the load raises. *)
Lemma frame_no_prompt D P i s w x :
  latent_mods !! i = Some x ->
  breaks image_limit i = false ->
  advances D P i = true ->
  prompts !! (i + 1) = None ->
  exists w2 evs,
    frame prompts latent_mods seed_mode latent_mode image_limit
      latent_mod_limit ks D P i s w = (Raise IndexError, w2)
    /\ trace w2 = trace w ++ evs
    /\ length (sampledLatents evs) = 1.
Proof.
  intros Hx Hb Ha Hp.
  destruct (iterateLatent_effect (latentTensor s) latent_mode latent_mod_limit x w)
    as (lt & w1 & Hstep & Htr & _).
  unfold frame, index. unfold bind at 1. rewrite Hx.
  unfold bind at 1. rewrite Hstep.
  unfold torch_mean, sample, deref, log, bind at 1 2 3 4 5, ret at 1 2.
  simpl. fold (breaks image_limit i). fold (advances D P i). rewrite Hb, Ha.
  unfold bind at 1.
  destruct (iterateSeed_effect (seed s) seed_mode
              (logged w1 (EvSample (seed s) (promptPos s) (promptNeg s)
                                   (elements w1 lt))))
    as (sd & w1' & Hsd & Htr' & _).
  rewrite Hsd. unfold buildPrompts, index, log, bind, ret. simpl. rewrite Hp.
  do 2 eexists. split; [reflexivity|]. simpl. rewrite Htr'. simpl. rewrite Htr.
  rewrite <- !app_assoc. split; reflexivity.
Qed.

(** A loop with fewer modifiers than frames to produce raises when it
    reaches the first frame without one; the frames before it were
    sampled. *)
Lemma frames_short_modifiers D n : forall i s w,
  i + n = D ->
  ((0 < image_limit)%Z -> (Z.of_nat i < image_limit)%Z) ->
  i <= length latent_mods ->
  length latent_mods < i + remaining image_limit n i ->
  (length prompts <= 1 \/ length latent_mods < length prompts) ->
  exists w' evs,
    frames_ D (length prompts) n i s w = (Raise IndexError, w')
    /\ trace w' = trace w ++ evs
    /\ length (sampledLatents evs) = length latent_mods - i.
Proof.
  induction n as [|n IH]; intros i s w Hin Hlt Hi Hshort Hprompts.
  - unfold remaining in Hshort. destruct (0 <? image_limit)%Z; lia.
  - destruct (latent_mods !! i) as [x|] eqn:Hx.
    2:{ apply lookup_ge_None in Hx. exists w, [].
        simpl. unfold bind, frame, index. unfold bind at 1.
        rewrite (proj2 (lookup_ge_None _ _) Hx). simpl.
        rewrite app_nil_r. repeat split. lia. }
    apply lookup_lt_Some in Hx as Hlen.
    destruct (breaks image_limit i) eqn:Hb.
    { apply breaks_true in Hb. destruct Hb as [Hpos Hlast].
      unfold remaining in Hshort. rewrite (proj2 (Z.ltb_lt _ _) Hpos) in Hshort.
      lia. }
    pose proof (proj1 (breaks_false i) Hb) as Hb'.
    assert (Hrem : remaining image_limit (S n) i
                   = S (remaining image_limit n (S i))).
    { unfold remaining. destruct (0 <? image_limit)%Z eqn:Hpos; [|reflexivity].
      apply Z.ltb_lt in Hpos. specialize (Hlt Hpos). lia. }
    destruct (frame_run D (length prompts) i s w x Hx) as
      (lt & w1 & c & w2 & _ & Hframe & _ & Hc).
    { intros Ha _. unfold advances in Ha.
      apply andb_true_iff in Ha. destruct Ha as [HP _].
      apply Nat.ltb_lt in HP. apply lookup_lt_is_Some. lia. }
    rewrite Hb in Hc. destruct Hc as (sd & pos & neg & -> & Htr).
    match type of Hframe with
    | _ = (Ok (Continue ?x), _) => set (s1 := x) in *
    end.
    destruct (IH (S i) s1 w2) as (w' & evs & Hrun & Htr' & Hsamp);
      [lia | lia | lia | lia | exact Hprompts |].
    exists w'. eexists. simpl. unfold bind. rewrite Hframe.
    split; [exact Hrun|].
    split; [rewrite Htr', Htr, <- app_assoc; reflexivity|].
    rewrite !sampledLatents_app. simpl.
    destruct (advances _ _ _); simpl; rewrite Hsamp; lia.
Qed.

(** A loop with more than one prompt frame but fewer than frames to
    produce raises when it is to load the first missing one; the frames
    up to there were sampled. *)
Lemma frames_short_prompts D n : forall i s w,
  i + n = D ->
  ((0 < image_limit)%Z -> (Z.of_nat i < image_limit)%Z) ->
  1 < length prompts ->
  i < length prompts ->
  length prompts < i + remaining image_limit n i ->
  length prompts <= length latent_mods ->
  exists w' evs,
    frames_ D (length prompts) n i s w = (Raise IndexError, w')
    /\ trace w' = trace w ++ evs
    /\ length (sampledLatents evs) = length prompts - i.
Proof.
  induction n as [|n IH]; intros i s w Hin Hlt Hmany Hi Hshort Hmods.
  - unfold remaining in Hshort. destruct (0 <? image_limit)%Z; lia.
  - destruct (latent_mods !! i) as [x|] eqn:Hx.
    2:{ apply lookup_ge_None in Hx. lia. }
    destruct (breaks image_limit i) eqn:Hb.
    { apply breaks_true in Hb. destruct Hb as [Hpos Hlast].
      unfold remaining in Hshort. rewrite (proj2 (Z.ltb_lt _ _) Hpos) in Hshort.
      lia. }
    pose proof (proj1 (breaks_false i) Hb) as Hb'.
    assert (Hrem : remaining image_limit (S n) i
                   = S (remaining image_limit n (S i))).
    { unfold remaining. destruct (0 <? image_limit)%Z eqn:Hpos; [|reflexivity].
      apply Z.ltb_lt in Hpos. specialize (Hlt Hpos). lia. }
    assert (HremD : remaining image_limit n (S i) <= n).
    { unfold remaining. destruct (0 <? image_limit)%Z; lia. }
    destruct (Nat.eq_dec (i + 1) (length prompts)) as [Hlast|Hmore].
    + destruct (frame_no_prompt D (length prompts) i s w x Hx Hb)
        as (w2 & evs & Hframe & Htr & Hsamp).
      { unfold advances. rewrite andb_true_iff, !Nat.ltb_lt. lia. }
      { apply lookup_ge_None. lia. }
      exists w2, evs. simpl. unfold bind. rewrite Hframe.
      split; [reflexivity|]. split; [exact Htr|]. lia.
    + destruct (frame_run D (length prompts) i s w x Hx) as
        (lt & w1 & c & w2 & _ & Hframe & _ & Hc).
      { intros _ _. apply lookup_lt_is_Some. lia. }
      rewrite Hb in Hc. destruct Hc as (sd & pos & neg & -> & Htr).
      match type of Hframe with
      | _ = (Ok (Continue ?x), _) => set (s1 := x) in *
      end.
      destruct (IH (S i) s1 w2) as (w' & evs & Hrun & Htr' & Hsamp);
        [lia | lia | lia | lia | lia | lia |].
      exists w'. eexists. simpl. unfold bind. rewrite Hframe.
      split; [exact Hrun|].
      split; [rewrite Htr', Htr, <- app_assoc; reflexivity|].
      rewrite !sampledLatents_app. simpl.
      destruct (advances _ _ _); simpl; rewrite Hsamp; lia.
Qed.

(** X4. A run with fewer modifiers than frames to produce does not
    return: it raises IndexError at the first frame without a modifier,
    after one sampler call for each modifier there is. *)
Theorem short_modifiers_raise p0 seed0 latent_image w :
  let N := frameCount (length (positive p0)) image_limit in
  let run := process prompts latent_mods seed_mode latent_mode image_limit
               latent_mod_limit ks seed0 latent_image w in
  prompts !! 0 = Some p0 ->
  String.eqb latent_mode LATENT_MODE_BOUNCE && fle latent_mod_limit (lit 0) = false ->
  length latent_mods < N ->
  (length prompts = 1 \/ length latent_mods < length prompts) ->
  exists evs,
    fst run = Raise IndexError
    /\ trace (snd run) = trace w ++ evs
    /\ length (sampledLatents evs) = length latent_mods.
Proof.
  intros N run Hp0 Hvalid Hshort Hprompts. subst run.
  assert (HN : remaining image_limit (length (positive p0)) 0 = N).
  { unfold remaining, N, frameCount. now rewrite Nat.sub_0_r. }
  destruct (frames_short_modifiers (length (positive p0)) (length (positive p0))
              0 (initialLocals p0 seed0 w) (entered seed0 latent_image w))
    as (w' & evs & Hrun & Htr & Hsamp);
    [reflexivity | auto | lia | lia | destruct Hprompts; [left|right]; lia |].
  assert (Hraise : process prompts latent_mods seed_mode latent_mode image_limit
                     latent_mod_limit ks seed0 latent_image w
                   = (Raise IndexError, w')).
  { rewrite (process_enter p0) by assumption.
    unfold bind at 1. now rewrite Hrun. }
  rewrite Hraise. simpl.
  exists (EvPrompt 0 :: evs). split; [reflexivity|].
  split; [rewrite Htr; simpl; now rewrite <- app_assoc|].
  simpl. lia.
Qed.

(** X3. A run with more than one prompt frame but fewer than frames to
    produce does not return, and the last prompt is not held: it raises
    IndexError when it is to load the first missing prompt frame, after
    one sampler call for each prompt frame there is. *)
Theorem short_prompts_raise p0 seed0 latent_image w :
  let N := frameCount (length (positive p0)) image_limit in
  let run := process prompts latent_mods seed_mode latent_mode image_limit
               latent_mod_limit ks seed0 latent_image w in
  prompts !! 0 = Some p0 ->
  String.eqb latent_mode LATENT_MODE_BOUNCE && fle latent_mod_limit (lit 0) = false ->
  1 < length prompts ->
  length prompts < N ->
  length prompts <= length latent_mods ->
  exists evs,
    fst run = Raise IndexError
    /\ trace (snd run) = trace w ++ evs
    /\ length (sampledLatents evs) = length prompts.
Proof.
  intros N run Hp0 Hvalid Hmany Hshort Hmods. subst run.
  assert (HN : remaining image_limit (length (positive p0)) 0 = N).
  { unfold remaining, N, frameCount. now rewrite Nat.sub_0_r. }
  destruct (frames_short_prompts (length (positive p0)) (length (positive p0))
              0 (initialLocals p0 seed0 w) (entered seed0 latent_image w))
    as (w' & evs & Hrun & Htr & Hsamp);
    [reflexivity | auto | lia | lia | lia | lia |].
  assert (Hraise : process prompts latent_mods seed_mode latent_mode image_limit
                     latent_mod_limit ks seed0 latent_image w
                   = (Raise IndexError, w')).
  { rewrite (process_enter p0) by assumption.
    unfold bind at 1. now rewrite Hrun. }
  rewrite Hraise. simpl.
  exists (EvPrompt 0 :: evs). split; [reflexivity|].
  split; [rewrite Htr; simpl; now rewrite <- app_assoc|].
  simpl. lia.
Qed.

(** X10. A first prompt whose positive conditioning is empty gives a
    run of no frames: past the bounce check, [process] returns
    [{"samples": None}] and the chart of an empty series, having called
    the sampler not once, whatever the modifiers and [image_limit] are. *)
Theorem no_frames_no_samples p0 seed0 latent_image w :
  prompts !! 0 = Some p0 ->
  positive p0 = [] ->
  String.eqb latent_mode LATENT_MODE_BOUNCE && fle latent_mod_limit (lit 0) = false ->
  process prompts latent_mods seed_mode latent_mode image_limit
    latent_mod_limit ks seed0 latent_image w
  = (Ok {| samples := None; chartImages := [chartData [] "Latent Means"] |},
     logged (entered seed0 latent_image w) (EvChart [] "Latent Means"))
  /\ sampledLatents
       (trace (logged (entered seed0 latent_image w) (EvChart [] "Latent Means")))
     = sampledLatents (trace w).
Proof.
  intros Hp0 Hpos Hvalid.
  rewrite (process_enter p0) by assumption.
  unfold initialLocals. rewrite Hpos. simpl. split; [reflexivity|].
  rewrite !sampledLatents_app. simpl. now rewrite !app_nil_r.
Qed.

Lemma bind_congr {A B} (m1 m2 : M A) (k1 k2 : A -> M B) w :
  m1 w = m2 w ->
  (forall a w', k1 a w' = k2 a w') ->
  bind m1 k1 w = bind m2 k2 w.
Proof.
  intros Hm Hk. unfold bind. rewrite Hm.
  destruct (m2 w) as [[a|e] w']; [apply Hk | reflexivity].
Qed.

(** A latent mode the code does not name falls through to the last
    branch: the step hands the latent back. *)
Lemma iterateLatent_unnamed latent modLimit modifier w :
  String.eqb latent_mode LATENT_MODE_FLOW = false ->
  String.eqb latent_mode LATENT_MODE_BOUNCE = false ->
  String.eqb latent_mode LATENT_MODE_INCREASE = false ->
  String.eqb latent_mode LATENT_MODE_DECREASE = false ->
  String.eqb latent_mode LATENT_MODE_GAUSS = false ->
  _iterateLatentByMode latent latent_mode modLimit modifier w = (Ok latent, w).
Proof.
  intros Hf Hb Hi Hd Hg. unfold _iterateLatentByMode.
  rewrite Hf. unfold bind at 1, ret at 1. rewrite Hb.
  unfold bind at 1, ret at 1. now rewrite Hi, Hd, Hg.
Qed.

(** X11. A latent mode the code does not name is run as [static]: for
    any string other than the five named modes, [process] does what it
    does for ["static"], to the last call and tensor. *)
Theorem unnamed_latent_mode_is_static seed0 latent_image w :
  String.eqb latent_mode LATENT_MODE_FLOW = false ->
  String.eqb latent_mode LATENT_MODE_BOUNCE = false ->
  String.eqb latent_mode LATENT_MODE_INCREASE = false ->
  String.eqb latent_mode LATENT_MODE_DECREASE = false ->
  String.eqb latent_mode LATENT_MODE_GAUSS = false ->
  process prompts latent_mods seed_mode latent_mode image_limit
    latent_mod_limit ks seed0 latent_image w
  = process prompts latent_mods seed_mode LATENT_MODE_STATIC image_limit
      latent_mod_limit ks seed0 latent_image w.
Proof.
  intros Hf Hb Hi Hd Hg.
  assert (Hframe : forall D P i s w0,
            frame prompts latent_mods seed_mode latent_mode image_limit
              latent_mod_limit ks D P i s w0
            = frame prompts latent_mods seed_mode LATENT_MODE_STATIC image_limit
                latent_mod_limit ks D P i s w0).
  { intros D P i s w0. unfold frame.
    apply bind_congr; [reflexivity|]. intros x w1.
    apply bind_congr; [|reflexivity].
    now rewrite iterateLatent_unnamed. }
  assert (Hframes : forall D P n i s w0,
            frames_ D P n i s w0
            = frames prompts latent_mods seed_mode LATENT_MODE_STATIC image_limit
                latent_mod_limit ks D P n i s w0).
  { intros D P n. induction n as [|n IH]; intros i s w0; [reflexivity|].
    simpl. apply bind_congr; [apply Hframe|].
    intros [s1|s1] w1; [apply IH | reflexivity]. }
  unfold process.
  apply bind_congr; [reflexivity|]. intros _ w1.
  apply bind_congr; [reflexivity|]. intros _ w2.
  apply bind_congr; [reflexivity|]. intros p0 w3.
  rewrite Hb. simpl.
  destruct (length prompts =? 0); [reflexivity|].
  apply bind_congr; [reflexivity|]. intros pp w4.
  apply bind_congr; [reflexivity|]. intros lt w5.
  apply bind_congr; [apply Hframes | reflexivity].
Qed.

Lemma rendered_app (a b : list Event) :
  rendered ks (a ++ b) = rendered ks a ++ rendered ks b.
Proof. induction a as [|[] a IH]; simpl; congruence. Qed.

Lemma vstack_all (imgs : list (list R)) : forall o,
  fold_left vstack imgs (Some o) = Some (o ++ imgs).
Proof.
  induction imgs as [|img imgs IH]; intros o; simpl.
  - now rewrite app_nil_r.
  - now rewrite IH, <- app_assoc.
Qed.

(** The output stack of a loop that finds its modifiers and prompts: the
    sampler's results are stacked in the order of the calls. *)
Lemma frames_stack D n : forall i s w,
  i + n = D ->
  length (latentTensorMeans s) = D ->
  ((0 < image_limit)%Z -> (Z.of_nat i < image_limit)%Z) ->
  i + remaining image_limit n i <= length latent_mods ->
  (length prompts <= 1 \/ i + remaining image_limit n i <= length prompts) ->
  exists s' w' evs,
    frames_ D (length prompts) n i s w = (Ok s', w')
    /\ trace w' = trace w ++ evs
    /\ outputTensor s' = fold_left vstack (rendered ks evs) (outputTensor s).
Proof.
  induction n as [|n IH]; intros i s w Hin Hlen Hlt Hmods Hprompts.
  - exists s, w, []. simpl. now rewrite app_nil_r.
  - assert (Hrem1 : 1 <= remaining image_limit (S n) i).
    { unfold remaining. destruct (0 <? image_limit)%Z eqn:Hpos; [|lia].
      apply Z.ltb_lt in Hpos. specialize (Hlt Hpos). lia. }
    destruct (latent_mods !! i) as [x|] eqn:Hx.
    2:{ apply lookup_ge_None in Hx. lia. }
    destruct (frame_run D (length prompts) i s w x Hx) as
      (lt & w1 & c & w2 & _ & Hframe & _ & Hc).
    { intros Ha Hb. unfold advances in Ha.
      apply andb_true_iff in Ha. destruct Ha as [HP HD].
      apply Nat.ltb_lt in HP. apply Nat.ltb_lt in HD.
      apply lookup_lt_is_Some. apply breaks_false in Hb.
      destruct Hprompts as [Hone|Hmany]; [lia|].
      unfold remaining in Hmany.
      destruct (0 <? image_limit)%Z eqn:Hpos; [|lia].
      apply Z.ltb_lt in Hpos. lia. }
    destruct (breaks image_limit i) eqn:Hb.
    + destruct Hc as [-> Htr].
      do 3 eexists. simpl. unfold bind. rewrite Hframe.
      split; [reflexivity|]. split; [exact Htr | reflexivity].
    + destruct Hc as (sd & pos & neg & -> & Htr).
      pose proof (proj1 (breaks_false i) Hb) as Hb'.
      assert (Hrem : remaining image_limit (S n) i
                     = S (remaining image_limit n (S i))).
      { unfold remaining. destruct (0 <? image_limit)%Z eqn:Hpos; [|reflexivity].
        apply Z.ltb_lt in Hpos. lia. }
      match type of Hframe with
      | _ = (Ok (Continue ?x), _) => set (s1 := x) in *
      end.
      destruct (IH (S i) s1 w2) as (s' & w' & evs & Hrun & Htr' & Hout).
      { lia. }
      { subst s1. simpl. now rewrite length_insert. }
      { lia. }
      { lia. }
      { destruct Hprompts; [left|right]; lia. }
      do 3 eexists. simpl. unfold bind. rewrite Hframe.
      split; [exact Hrun|].
      split; [rewrite Htr', Htr, <- app_assoc; reflexivity|].
      rewrite Hout. subst s1. simpl. rewrite rendered_app.
      destruct (advances _ _ _); reflexivity.
Qed.

(** X13. The output of a run that returns is the sampler's results, one
    slice per call, stacked in call order; a run of no frames returns
    [None] for it. *)
Theorem output_stack_is_sampler_results p0 seed0 latent_image w out w' :
  prompts !! 0 = Some p0 ->
  process prompts latent_mods seed_mode latent_mode image_limit
    latent_mod_limit ks seed0 latent_image w = (Ok out, w') ->
  exists evs,
    trace w' = trace w ++ evs
    /\ samples out = match rendered ks evs with
                     | [] => None
                     | imgs => Some imgs
                     end.
Proof.
  intros Hp0 Hrun.
  destruct (process_ok_in_range p0 seed0 latent_image w out w' Hp0 Hrun)
    as (Hvalid & Hmods & Hprompts).
  assert (HN : remaining image_limit (length (positive p0)) 0
               = frameCount (length (positive p0)) image_limit).
  { unfold remaining, frameCount. now rewrite Nat.sub_0_r. }
  destruct (frames_stack (length (positive p0)) (length (positive p0)) 0
              (initialLocals p0 seed0 w) (entered seed0 latent_image w))
    as (s' & w'' & evs & Hframes & Htr & Hout).
  { reflexivity. }
  { simpl. apply length_replicate. }
  { auto. }
  { rewrite HN. exact Hmods. }
  { rewrite HN. destruct Hprompts; [left|right]; lia. }
  rewrite (process_enter p0) in Hrun by assumption.
  unfold bind at 1 in Hrun. rewrite Hframes in Hrun.
  unfold finish, log, bind, ret in Hrun. injection Hrun as <- <-.
  exists (EvPrompt 0 :: evs ++ [EvChart (latentTensorMeans s') "Latent Means"]).
  split.
  { simpl. rewrite Htr. simpl. now rewrite <- !app_assoc. }
  simpl. rewrite rendered_app. simpl. rewrite app_nil_r, Hout. simpl.
  destruct (rendered ks evs) as [|img imgs]; [reflexivity|].
  simpl. now rewrite vstack_all.
Qed.

(** X12. A run changes no tensor that was there before it, whatever the
    mode and however the run ends: in-place steps overwrite the clone
    [process] made, and everything else it writes is a new tensor. *)
Theorem process_changes_no_tensor seed0 latent_image w l0 (t0 : list R) :
  tensors w !! l0 = Some t0 ->
  tensors (snd (process prompts latent_mods seed_mode latent_mode image_limit
                  latent_mod_limit ks seed0 latent_image w)) !! l0
  = Some t0.
Proof.
  intros Hl.
  destruct (prompts !! 0) as [p0|] eqn:Hp0.
  2:{ unfold process, random_seed_, np_random_default_rng, index, bind, ret.
      simpl. rewrite Hp0. exact Hl. }
  destruct (String.eqb latent_mode LATENT_MODE_BOUNCE
            && fle latent_mod_limit (lit 0)) eqn:Hvalid.
  { unfold process, random_seed_, np_random_default_rng, index, raise.
    unfold bind at 1 2 3, ret. simpl. rewrite Hp0, Hvalid. exact Hl. }
  rewrite (process_enter p0) by assumption.
  pose proof (frames_tensors (length (positive p0)) (length prompts)
                l0 t0 (length (positive p0)) 0
                (initialLocals p0 seed0 w) (entered seed0 latent_image w)) as Hk.
  apply lookup_lt_Some in Hl as Hlt.
  unfold bind at 1.
  destruct (frames_ _ _ _ _ _ _) as [[s'|e] w'];
    simpl in *; apply Hk; try lia; now rewrite lookup_app_l.
Qed.

(** X14. A positive [image_limit] above the number of frames is no limit
    at all: the run is the one [image_limit = -1] gives, to the last call
    and tensor. *)
Theorem limit_beyond_frames_is_no_limit p0 seed0 latent_image w :
  prompts !! 0 = Some p0 ->
  (Z.of_nat (length (positive p0)) < image_limit)%Z ->
  process prompts latent_mods seed_mode latent_mode image_limit
    latent_mod_limit ks seed0 latent_image w
  = process prompts latent_mods seed_mode latent_mode (-1)
      latent_mod_limit ks seed0 latent_image w.
Proof.
  intros Hp0 Hbeyond.
  set (D := length (positive p0)) in *.
  assert (Hframe : forall P i s w0, i < D ->
            frame prompts latent_mods seed_mode latent_mode image_limit
              latent_mod_limit ks D P i s w0
            = frame prompts latent_mods seed_mode latent_mode (-1)
                latent_mod_limit ks D P i s w0).
  { intros P i s w0 Hi. unfold frame.
    apply bind_congr; [reflexivity|]. intros x w1.
    apply bind_congr; [reflexivity|]. intros lt w2.
    apply bind_congr; [reflexivity|]. intros m w3.
    apply bind_congr; [reflexivity|]. intros img w4.
    replace ((0 <? image_limit)%Z && (image_limit - 1 <=? Z.of_nat i)%Z)
      with false; [reflexivity|].
    symmetry. apply andb_false_iff. right. apply Z.leb_gt. lia. }
  assert (Hframes : forall P n i s w0, i + n = D ->
            frames_ D P n i s w0
            = frames prompts latent_mods seed_mode latent_mode (-1)
                latent_mod_limit ks D P n i s w0).
  { intros P n. induction n as [|n IH]; intros i s w0 Hin; [reflexivity|].
    simpl. apply bind_congr; [apply Hframe; lia|].
    intros [s1|s1] w1; [apply IH; lia | reflexivity]. }
  destruct (String.eqb latent_mode LATENT_MODE_BOUNCE
            && fle latent_mod_limit (lit 0)) eqn:Hvalid.
  { unfold process, random_seed_, np_random_default_rng, index, raise.
    unfold bind, ret. simpl. now rewrite Hp0, Hvalid. }
  unfold process.
  apply bind_congr; [reflexivity|]. intros _ w1.
  apply bind_congr; [reflexivity|]. intros _ w2.
  assert (Hfirst : forall B (k : MbmPrompt R -> M B) w0,
            bind (index prompts 0) k w0 = k p0 w0).
  { intros B k w0. unfold bind, index. now rewrite Hp0. }
  rewrite !Hfirst. fold D. rewrite Hvalid.
  destruct (length prompts =? 0); [reflexivity|].
  apply bind_congr; [reflexivity|]. intros pp w4.
  apply bind_congr; [reflexivity|]. intros lt w5.
  apply bind_congr; [apply Hframes; reflexivity | reflexivity].
Qed.

End Loop.

(** C6, as the code has it.  With no prompt at all, [process] fails on
    [prompts[0]] while taking the frame count, before it reaches the check
    that would raise "At least one prompt is required.": the error is an
    IndexError.  No call was made and no tensor touched. *)
Theorem empty_prompts_index_error
  latent_mods seed_mode latent_mode image_limit latent_mod_limit ks
  seed0 latent_image w :
  process [] latent_mods seed_mode latent_mode image_limit latent_mod_limit ks
    seed0 latent_image w
  = (Raise IndexError, reseeded seed0 w).
Proof. reflexivity. Qed.

End Orchestrator.

(** * The code on concrete inputs *)

(** [increase] with limit 5 and modifier 1 from mean 0: the means climb to
    5 and stay there. *)
Example increase_freezes_at_limit :
  trajectory
    (process [testPrompt 8] (replicate 8 1%Q) "fixed" "increase" (-1) 5%Q
       testSettings 7 0 (startWorld 0))
  = [[1; 2; 3; 4; 5; 5; 5; 5]%Q].
Proof. vm_compute. reflexivity. Qed.

(** [decrease], the mirror image. *)
Example decrease_freezes_at_limit :
  trajectory
    (process [testPrompt 8] (replicate 8 1%Q) "fixed" "decrease" (-1) 5%Q
       testSettings 7 0 (startWorld 0))
  = [[-1; -2; -3; -4; -5; -5; -5; -5]%Q].
Proof. vm_compute. reflexivity. Qed.

(** [bounce] with limit 3 and modifier 1 from mean 0: up to 3, down to -3,
    up again; reaching the limit itself does not turn the direction. *)
Example bounce_turns_past_limit :
  trajectory
    (process [testPrompt 12] (replicate 12 1%Q) "fixed" "bounce" (-1) 3%Q
       testSettings 7 0 (startWorld 0))
  = [[1; 2; 3; 2; 1; 0; -1; -2; -3; -2; -1; 0]%Q].
Proof. vm_compute. reflexivity. Qed.

(** With two prompt frames and three frames to produce, the third prompt
    load is out of range: the run raises after two sampler calls. *)
Example short_prompt_sequence_raises :
  let run := process [testPrompt 3; testPrompt 3] (replicate 3 1%Q)
               "increase" "increase" 0 5%Q testSettings 7 0 (startWorld 0) in
  fst run = Raise IndexError /\ sampledSeeds (trace (snd run)) = [7; 8]%Z.
Proof. vm_compute. split; reflexivity. Qed.

Lemma applyFeatToLatent_bounded_witness :
  let w := startWorld 2 in
  _applyFeatToLatent 0 FEAT_APPLY_METHOD_ADD (-1)%Q 1%Q w
    = (Ok 0, overwritten w 0 [3%Q; 3%Q])
  /\ _applyFeatToLatent 0 FEAT_APPLY_METHOD_SUBTRACT (-1)%Q 1%Q w
    = (Ok 0, overwritten w 0 [1%Q; 1%Q]).
Proof.
  exact (proj2 (proj2 (applyFeatToLatent_bounded 0 (-1)%Q 1%Q (startWorld 2)))
           eq_refl).
Defined.

Lemma bounce_step_witness :
  (* candidate 3 = modLimit: still inside, the step adds and stays up *)
  (_iterateLatentByMode 0 LATENT_MODE_BOUNCE 3%Q 1%Q (startWorld 2)
     = _applyFeatToLatent 0 FEAT_APPLY_METHOD_ADD 3%Q 1%Q (startWorld 2)
   /\ __isBouncingUp
        (snd (_iterateLatentByMode 0 LATENT_MODE_BOUNCE 3%Q 1%Q (startWorld 2)))
      = true)
  (* candidate 4 > modLimit: the step subtracts and turns down *)
  /\ (_iterateLatentByMode 0 LATENT_MODE_BOUNCE 3%Q 1%Q (startWorld 3)
        = _applyFeatToLatent 0 FEAT_APPLY_METHOD_SUBTRACT 3%Q 1%Q
            (flipped (startWorld 3))
      /\ __isBouncingUp
           (snd (_iterateLatentByMode 0 LATENT_MODE_BOUNCE 3%Q 1%Q (startWorld 3)))
         = false)
  (* modLimit 0: the step adds *)
  /\ _iterateLatentByMode 0 LATENT_MODE_BOUNCE 0%Q 1%Q (startWorld 3)
       = _applyFeatToLatent 0 FEAT_APPLY_METHOD_ADD 0%Q 1%Q (startWorld 3).
Proof.
  split; [|split].
  - exact (proj1 (bounce_step 0 3%Q 1%Q (startWorld 2)) eq_refl eq_refl).
  - exact (proj1 (proj2 (bounce_step 0 3%Q 1%Q (startWorld 3))) eq_refl eq_refl).
  - exact (proj2 (proj2 (bounce_step 0 0%Q 1%Q (startWorld 3))) eq_refl).
Defined.


Lemma chart_series_not_truncated_witness :
  exists out w' evs series,
    limitedRun = (Ok out, w')
    /\ trace w' = evs
    /\ chartedSeries evs = [series]
    /\ chartImages out = [(series, "Latent Means"%string)]
    /\ length series = 10
    /\ length (sampledLatents evs) = 3
    /\ series = map Qmean (sampledLatents evs) ++ replicate 7 0%Q.
Proof.
  destruct (chart_series_not_truncated (replicate 10 (testPrompt 10))
              (replicate 10 1%Q) "increase" "increase" 3 5%Q testSettings
              (testPrompt 10) 7 0 (startWorld 0) eq_refl)
    as (Hreturns & Hseries).
  destruct Hreturns as (out & w' & Hrun);
    [reflexivity | vm_compute; lia | right; vm_compute; lia |].
  destruct (Hseries out w' Hrun) as (evs & series & Hrest).
  exists out, w', evs, series. split; [exact Hrun | exact Hrest].
Defined.

Lemma process_keeps_caller_latent_witness :
  tensors (snd limitedRun) !! 0 = Some [0%Q; 0%Q].
Proof.
  exact (process_keeps_caller_latent (replicate 10 (testPrompt 10))
           (replicate 10 1%Q) "increase" "increase" 3 5%Q testSettings
           7 0 (startWorld 0) [0%Q; 0%Q] eq_refl).
Defined.

Lemma bounce_without_limit_rejected_witness :
  process [testPrompt 4] (replicate 4 1%Q) "fixed" "bounce" (-1) 0%Q
    testSettings 7 0 (startWorld 0)
  = (Raise (ValueError
       "Latent Mod Limit must be set to `>0` when using the `bounce` Latent Mode"),
     reseeded 7 (startWorld 0)).
Proof.
  assert (Hne : [testPrompt 4] <> []) by discriminate.
  exact (proj1 (bounce_without_limit_rejected [testPrompt 4] (replicate 4 1%Q)
                  "fixed" "bounce" (-1) 0%Q testSettings 7 0 (startWorld 0)
                  eq_refl eq_refl Hne)).
Defined.

Lemma static_run_witness :
  exists out w' evs series,
    process [testPrompt 4] (replicate 4 1%Q) "increase" "static" 3 5%Q
      testSettings 7 0 (startWorld 2) = (Ok out, w')
    /\ trace w' = evs
    /\ sampledLatents evs = [[2; 2]; [2; 2]; [2; 2]]%Q
    /\ chartedSeries evs = [series]
    /\ series = [2; 2; 2; 0]%Q.
Proof.
  assert (Hmods : 3 <= 4) by lia.
  exact (proj2 (static_run [testPrompt 4] (replicate 4 1%Q) "increase" "static"
                  3 5%Q testSettings (testPrompt 4) 7 0 (startWorld 2) [2; 2]%Q
                  eq_refl eq_refl)
           eq_refl Hmods (or_introl eq_refl)).
Defined.


(** C8 as stated fails: [static], two frames due, [image_limit = 1], a
    starting latent of mean 1.  The trajectory is [1; 0], not constant. *)
Lemma static_trajectory_not_constant :
  tmean [1%Q; 1%Q] = 1%Q
  /\ trajectory
       (process [testPrompt 2] [1%Q; 1%Q] "fixed" "static" 1 5%Q testSettings
          7 0 (startWorld 1))
     = [[1%Q; 0%Q]].
Proof. vm_compute. split; reflexivity. Qed.

Lemma bounce_flag_outlives_run_witness :
  bounceRun (startWorld 0) =
    bind (frames [testPrompt 2] [1%Q; 1%Q] "fixed" "bounce" (-1) 1%Q testSettings
            2 1 2 0 (initialLocals (testPrompt 2) 7 (startWorld 0)))
         finish (entered 7 0 (startWorld 0))
  /\ __isBouncingUp (entered 7 0 (startWorld 0)) = true.
Proof.
  destruct (bounce_flag_outlives_run [testPrompt 2] [1%Q; 1%Q] "fixed" "bounce"
              (-1) 1%Q testSettings (testPrompt 2) 7 0 (startWorld 0))
    as (Hrun & Hflag & _).
  - reflexivity.
  - reflexivity.
  - split; [exact Hrun | exact Hflag].
Defined.

(** C5 as stated fails: the first run of a new node ends bouncing down,
    and the next run of the same node, on the same inputs, starts from
    there and goes down where the first went up. *)
Lemma bounce_flag_persists :
  let first := bounceRun (startWorld 0) in
  let second := bounceRun (snd first) in
  __isBouncingUp (startWorld 0) = true
  /\ __isBouncingUp (snd first) = false
  /\ trajectory first = [[1; 0]%Q]
  /\ trajectory second = [[1; 0]; [-1; 0]]%Q.
Proof. vm_compute. repeat split; reflexivity. Qed.

(** C3, as the code has it.  [process] seeds Python's generator and
    leaves numpy's, which [_createLatent] draws from, where the last run
    left it: two [guassian] runs on the same inputs and the same seed
    sample different latents.  Python's generator is at the same state
    after both runs, numpy's has moved on. *)
Theorem gaussian_runs_differ :
  let first := gaussRun (startWorld 0) in
  let second := gaussRun (snd first) in
  newLatents (startWorld 0) first = [[3; 3]; [11 # 2; 11 # 2]]%Q
  /\ newLatents (snd first) second = [[8; 8]; [21 # 2; 21 # 2]]%Q
  /\ py_random (snd first) = 7%Z /\ py_random (snd second) = 7%Z
  /\ np_random (snd first) = 2%Z /\ np_random (snd second) = 4%Z.
Proof. vm_compute. repeat split; reflexivity. Qed.

(** ** The further properties on concrete inputs *)

Lemma sampler_seed_schedule_witness :
  exists out w' evs,
    numberedRun = (Ok out, w')
    /\ trace w' = evs
    /\ length (sampledSeeds evs) = 3
    /\ sampledSeeds evs !! 0 = Some 1%Z
    /\ sampledSeeds evs !! 1 = Some 0%Z
    /\ sampledSeeds evs !! 2 = Some (-1)%Z.
Proof.
  assert (H3 : 3 <= 3) by lia.
  destruct (process_run
              [numberedPrompt 0 3; numberedPrompt 1 3; numberedPrompt 2 3]
              (replicate 3 1%Q) "decrease" "increase" (-1) 5%Q testSettings
              (numberedPrompt 0 3) 1 0 (startWorld 0)
              eq_refl eq_refl H3 (or_intror H3))
    as (out & w' & _ & _ & Hrun & _).
  destruct (sampler_seed_schedule
              [numberedPrompt 0 3; numberedPrompt 1 3; numberedPrompt 2 3]
              (replicate 3 1%Q) "decrease" "increase" (-1) 5%Q testSettings
              (numberedPrompt 0 3) 1 0 (startWorld 0) out w' eq_refl Hrun)
    as (evs & Htr & Hlen & _ & Hdec & _).
  assert (H0 : 0 < 3) by lia. assert (H1 : 1 < 3) by lia.
  assert (H2 : 2 < 3) by lia.
  exists out, w', evs. split; [exact Hrun|]. split; [exact Htr|].
  split; [exact Hlen|].
  split; [exact (Hdec eq_refl 0 H0)|].
  split; [exact (Hdec eq_refl 1 H1)|].
  exact (Hdec eq_refl 2 H2).
Defined.

Lemma sampler_prompt_schedule_witness :
  exists out w' evs,
    numberedRun = (Ok out, w')
    /\ trace w' = evs
    /\ sampledConditionings evs !! 0 = Some (conditionings (numberedPrompt 0 3))
    /\ sampledConditionings evs !! 2 = Some (conditionings (numberedPrompt 2 3)).
Proof.
  assert (H3 : 3 <= 3) by lia.
  destruct (process_run
              [numberedPrompt 0 3; numberedPrompt 1 3; numberedPrompt 2 3]
              (replicate 3 1%Q) "decrease" "increase" (-1) 5%Q testSettings
              (numberedPrompt 0 3) 1 0 (startWorld 0)
              eq_refl eq_refl H3 (or_intror H3))
    as (out & w' & _ & _ & Hrun & _).
  destruct (sampler_prompt_schedule
              [numberedPrompt 0 3; numberedPrompt 1 3; numberedPrompt 2 3]
              (replicate 3 1%Q) "decrease" "increase" (-1) 5%Q testSettings
              (numberedPrompt 0 3) 1 0 (startWorld 0) out w' eq_refl Hrun)
    as (evs & Htr & _ & _ & Hmany).
  assert (H0 : 0 < 3) by lia. assert (H1 : 1 < 3) by lia.
  assert (H2 : 2 < 3) by lia.
  exists out, w', evs. split; [exact Hrun|]. split; [exact Htr|].
  split; [exact (Hmany H1 0 H0) | exact (Hmany H1 2 H2)].
Defined.

Lemma short_prompts_raise_witness :
  exists evs,
    fst shortPromptsRun = Raise IndexError
    /\ trace (snd shortPromptsRun) = evs
    /\ length (sampledLatents evs) = 2.
Proof.
  assert (H2 : 2 <= 3) by lia. assert (H3 : 2 < 3) by lia.
  assert (H1 : 1 < 2) by lia.
  exact (short_prompts_raise [testPrompt 3; testPrompt 3] (replicate 3 1%Q)
           "increase" "increase" 0 5%Q testSettings (testPrompt 3) 7 0
           (startWorld 0) eq_refl eq_refl H1 H3 H2).
Defined.

Lemma short_modifiers_raise_witness :
  exists evs,
    fst shortModifiersRun = Raise IndexError
    /\ trace (snd shortModifiersRun) = evs
    /\ length (sampledLatents evs) = 2.
Proof.
  assert (H3 : 2 < 3) by lia.
  exact (short_modifiers_raise [testPrompt 3] [1%Q; 1%Q] "increase" "increase"
           0 5%Q testSettings (testPrompt 3) 7 0 (startWorld 0)
           eq_refl eq_refl H3 (or_introl eq_refl)).
Defined.

Lemma only_bounce_moves_flag_witness :
  let turned := snd (bounceRun (startWorld 0)) in
  __isBouncingUp turned = false
  /\ __isBouncingUp
       (snd (process [testPrompt 4] (replicate 4 1%Q) "fixed" "flow" (-1) 5%Q
               testSettings 7 0 turned))
     = __isBouncingUp turned.
Proof.
  split; [reflexivity|].
  exact (only_bounce_moves_flag [testPrompt 4] (replicate 4 1%Q) "fixed" "flow"
           (-1) 5%Q testSettings 7 0 (snd (bounceRun (startWorld 0))) eq_refl).
Defined.

Lemma generators_left_alone_witness :
  np_random (snd limitedRun) = 0%Z /\ py_random (snd limitedRun) = 7%Z.
Proof.
  destruct (generators_left_alone (replicate 10 (testPrompt 10))
              (replicate 10 1%Q) "increase" "increase" 3 5%Q testSettings
              7 0 (startWorld 0)) as [Hnp Hpy].
  split; [exact (Hnp eq_refl) | exact (Hpy eq_refl eq_refl)].
Defined.

Lemma process_raises_only_witness :
  IndexError <> ValueError "At least one prompt is required."
  /\ (IndexError = IndexError
      \/ (IndexError = ValueError
            "Latent Mod Limit must be set to `>0` when using the `bounce` Latent Mode"
          /\ "increase"%string = LATENT_MODE_BOUNCE
          /\ fle 5%Q (lit 0) = true)).
Proof.
  exact (process_raises_only [testPrompt 3; testPrompt 3] (replicate 3 1%Q)
           "increase" "increase" 0 5%Q testSettings 7 0 (startWorld 0)
           IndexError eq_refl).
Defined.

Lemma failed_run_renders_no_chart_witness :
  exists evs,
    trace (snd shortPromptsRun) = evs /\ chartedSeries evs = [].
Proof.
  exact (failed_run_renders_no_chart [testPrompt 3; testPrompt 3]
           (replicate 3 1%Q) "increase" "increase" 0 5%Q testSettings 7 0
           (startWorld 0) IndexError eq_refl).
Defined.

Lemma process_returns_iff_witness :
  (exists out w', shortModifiersRun = (Ok out, w'))
  <-> (String.eqb "increase" LATENT_MODE_BOUNCE && fle 5%Q (lit 0) = false
       /\ 3 <= 2
       /\ (1 = 1 \/ 3 <= 1)).
Proof.
  exact (process_returns_iff [testPrompt 3] [1%Q; 1%Q] "increase" "increase"
           0 5%Q testSettings (testPrompt 3) 7 0 (startWorld 0) eq_refl).
Defined.

Lemma no_frames_no_samples_witness :
  process [testPrompt 0] [] "fixed" "increase" 4 5%Q testSettings 7 0
    (startWorld 0)
  = (Ok {| samples := None; chartImages := [([], "Latent Means"%string)] |},
     logged (entered 7 0 (startWorld 0)) (EvChart [] "Latent Means")).
Proof.
  exact (proj1 (no_frames_no_samples [testPrompt 0] [] "fixed" "increase" 4 5%Q
                  testSettings (testPrompt 0) 7 0 (startWorld 0)
                  eq_refl eq_refl eq_refl)).
Defined.

Lemma unnamed_latent_mode_is_static_witness :
  process [testPrompt 4] (replicate 4 1%Q) "fixed" "gaussian" (-1) 5%Q
    testSettings 7 0 (startWorld 2)
  = process [testPrompt 4] (replicate 4 1%Q) "fixed" "static" (-1) 5%Q
      testSettings 7 0 (startWorld 2).
Proof.
  exact (unnamed_latent_mode_is_static [testPrompt 4] (replicate 4 1%Q) "fixed"
           "gaussian" (-1) 5%Q testSettings 7 0 (startWorld 2)
           eq_refl eq_refl eq_refl eq_refl eq_refl).
Defined.

Lemma process_changes_no_tensor_witness :
  tensors (snd (process [testPrompt 4] (replicate 4 1%Q) "fixed" "guassian"
                  (-1) 5%Q testSettings 7 0
                  (freshWorld (R:=Q) 0%Z 0%Z [[0; 0]; [9; 9; 9]]%Q))) !! 1
  = Some [9; 9; 9]%Q.
Proof.
  exact (process_changes_no_tensor [testPrompt 4] (replicate 4 1%Q) "fixed"
           "guassian" (-1) 5%Q testSettings 7 0
           (freshWorld (R:=Q) 0%Z 0%Z [[0; 0]; [9; 9; 9]]%Q) 1 [9; 9; 9]%Q
           eq_refl).
Defined.

Lemma output_stack_is_sampler_results_witness :
  exists out w',
    limitedRun = (Ok out, w')
    /\ samples out = Some [[1; 1]; [2; 2]; [3; 3]]%Q.
Proof.
  assert (H3 : 3 <= 10) by lia.
  destruct (process_run (replicate 10 (testPrompt 10)) (replicate 10 1%Q)
              "increase" "increase" 3 5%Q testSettings (testPrompt 10) 7 0
              (startWorld 0) eq_refl eq_refl H3 (or_intror H3))
    as (out & w' & _ & _ & Hrun & _).
  destruct (output_stack_is_sampler_results (replicate 10 (testPrompt 10))
              (replicate 10 1%Q) "increase" "increase" 3 5%Q testSettings
              (testPrompt 10) 7 0 (startWorld 0) out w' eq_refl Hrun)
    as (evs & Htr & Hout).
  exists out, w'. split; [exact Hrun|].
  assert (Hevs : evs = trace w') by (rewrite Htr; reflexivity).
  rewrite Hout, Hevs.
  assert (Hw : w' = snd limitedRun).
  { unfold limitedRun. now rewrite Hrun. }
  rewrite Hw. vm_compute. reflexivity.
Defined.

Lemma limit_beyond_frames_is_no_limit_witness :
  process [testPrompt 2] [1%Q; 1%Q] "random" "flow" 5 5%Q testSettings 7 0
    (startWorld 0)
  = process [testPrompt 2] [1%Q; 1%Q] "random" "flow" (-1) 5%Q testSettings 7 0
      (startWorld 0).
Proof.
  exact (limit_beyond_frames_is_no_limit [testPrompt 2] [1%Q; 1%Q] "random"
           "flow" 5 5%Q testSettings (testPrompt 2) 7 0 (startWorld 0)
           eq_refl eq_refl).
Defined.
